(** * Build an Atom: answer checking, level completion and atom configuration

    A shallow embedding of the parts of the Build an Atom simulation that
    decide how a submitted answer is judged (game/model and game/view), what
    the game screen shows when a level is completed, and how the model's atom
    is driven to a requested configuration (common/model/BuildAnAtomModel.js).

    JavaScript numbers that hold particle counts, charges and scores are
    integers here ([Z]); strict equality [===] on them is [Z.eqb], on strings
    [String.eqb].  A function that can throw returns a [Completion]; a [while]
    loop is a fixpoint on a fuel argument and [OutOfFuel] marks a loop that
    was cut short by it. *)

From Stdlib Require Import ZArith List String Bool Lia Permutation.
From Stdlib Require Import Ascii DecimalString DecimalZ.
Import ListNotations.

Local Open Scope string_scope.
Local Open Scope Z_scope.

(** ** Completions: normal return or a thrown error *)

Inductive Completion (A : Type) : Type :=
| Normal (a : A)
| Throw (message : string)
| OutOfFuel.

Arguments Normal {A} a.
Arguments Throw {A} message.
Arguments OutOfFuel {A}.

Definition bind {A B : Type} (c : Completion A) (k : A -> Completion B)
  : Completion B :=
  match c with
  | Normal a => k a
  | Throw m => Throw m
  | OutOfFuel => OutOfFuel
  end.

Notation "x <- c ;; k" := (bind c (fun x => k))
  (at level 61, c at next level, right associativity).

(** ** NumberAtom *)

Module NumberAtom.

(** Modelled from the spec: the NumberAtom value type (model/NumberAtom is
    required by the sources but is not among them).  Section 3 of the spec
    gives its three counts and the two derived quantities. *)
Record t : Type := new {
  protonCount : Z;
  neutronCount : Z;
  electronCount : Z
}.

Definition massNumber (a : t) : Z := protonCount a + neutronCount a.

Definition charge (a : t) : Z := protonCount a - electronCount a.

(** Two atoms are equivalent when all three counts match. *)
Definition equals (a b : t) : bool :=
  (protonCount a =? protonCount b)
  && (neutronCount a =? neutronCount b)
  && (electronCount a =? electronCount b).

End NumberAtom.

(** ** game/model/BAAChallengeState.js *)

Module BAAChallengeState.

Inductive t : Type :=
| PRESENTING_CHALLENGE
| CHALLENGE_SOLVED_CORRECTLY
| PRESENTING_TRY_AGAIN
| ATTEMPTS_EXHAUSTED
| DISPLAYING_CORRECT_ANSWER.

(** The string each member is bound to in the object literal. *)
Definition value (s : t) : string :=
  match s with
  | PRESENTING_CHALLENGE => "presentingChallenge"
  | CHALLENGE_SOLVED_CORRECTLY => "challengeSolvedCorrectly"
  | PRESENTING_TRY_AGAIN => "presentingTryAgain"
  | ATTEMPTS_EXHAUSTED => "attemptsExhausted"
  | DISPLAYING_CORRECT_ANSWER => "displayingCorrectAnswer"
  end.

(** The object literal itself: property name and value, in source order. *)
Definition entries : list (string * string) :=
  [ ("PRESENTING_CHALLENGE", "presentingChallenge");
    ("CHALLENGE_SOLVED_CORRECTLY", "challengeSolvedCorrectly");
    ("PRESENTING_TRY_AGAIN", "presentingTryAgain");
    ("ATTEMPTS_EXHAUSTED", "attemptsExhausted");
    ("DISPLAYING_CORRECT_ANSWER", "displayingCorrectAnswer") ].

(** Property name of a member. *)
Definition name (s : t) : string :=
  match s with
  | PRESENTING_CHALLENGE => "PRESENTING_CHALLENGE"
  | CHALLENGE_SOLVED_CORRECTLY => "CHALLENGE_SOLVED_CORRECTLY"
  | PRESENTING_TRY_AGAIN => "PRESENTING_TRY_AGAIN"
  | ATTEMPTS_EXHAUSTED => "ATTEMPTS_EXHAUSTED"
  | DISPLAYING_CORRECT_ANSWER => "DISPLAYING_CORRECT_ANSWER"
  end.

Definition all : list t :=
  [ PRESENTING_CHALLENGE; CHALLENGE_SOLVED_CORRECTLY; PRESENTING_TRY_AGAIN;
    ATTEMPTS_EXHAUSTED; DISPLAYING_CORRECT_ANSWER ].

(** [===] on two states compares the strings they are bound to. *)
Definition eqb (a b : t) : bool := String.eqb (value a) (value b).

End BAAChallengeState.

(** ** game/model/BAAGameChallenge.js (base type of all challenges) *)

Module BAAGameChallenge.
Import BAAChallengeState.

(** The arguments with which a checkAnswer method calls
    [this.handleEvaluatedAnswer( submittedAtom, isCorrect, options )]. *)
Record ChargeDetail : Type := {
  correctCharge : string;
  submittedCharge : string
}.

Record EvaluatedAnswer : Type := {
  submittedAtom : NumberAtom.t;
  isCorrect : bool;
  emitMessageOptions : option ChargeDetail
}.

(** Modelled from the spec: the challenge object built by the
    BAAGameChallenge constructor (game/model/BAAGameChallenge.js is not among
    the sources).  Section 3: an answer atom, a challenge type tag, the
    challenge state and the number of attempts made. *)
Record t : Type := {
  answerAtom : NumberAtom.t;
  challengeType : string;
  challengeState : BAAChallengeState.t;
  attemptsMade : Z
}.

(** Modelled from the spec: the BAAGameChallenge constructor.  Section 3:
    a challenge is created with state PRESENTING_CHALLENGE and
    attemptsMade = 0. *)
Definition create (answer : NumberAtom.t) (type : string) : t :=
  {| answerAtom := answer;
     challengeType := type;
     challengeState := PRESENTING_CHALLENGE;
     attemptsMade := 0 |}.

(** Modelled from the spec: MAX_ATTEMPTS of section 3 (first attempt plus
    one retry). *)
Definition MAX_ATTEMPTS : Z := 2.

(** Modelled from the spec: BAAGameChallenge.checkAnswer, the evaluation
    shared by the counts, charge, mass and symbol challenges.  Section 4.1:
    correct iff all three of protonCount, neutronCount and electronCount
    match exactly between the submitted and the answer atom. *)
Definition checkAnswer (this : t) (submitted : NumberAtom.t)
  : EvaluatedAnswer :=
  {| submittedAtom := submitted;
     isCorrect := NumberAtom.equals (answerAtom this) submitted;
     emitMessageOptions := None |}.

(** Modelled from the spec: BAAGameChallenge.handleEvaluatedAnswer, the
    state machine of section 4.2.  Every accepted submission counts as one
    attempt; a submission to a challenge in a terminal state is an invalid
    operation. *)
Definition handleEvaluatedAnswer (this : t) (ev : EvaluatedAnswer)
  : Completion t :=
  let moved (s : BAAChallengeState.t) :=
    {| answerAtom := answerAtom this;
       challengeType := challengeType this;
       challengeState := s;
       attemptsMade := attemptsMade this + 1 |} in
  match challengeState this with
  | PRESENTING_CHALLENGE =>
      if isCorrect ev then Normal (moved CHALLENGE_SOLVED_CORRECTLY)
      else if attemptsMade this + 1 <? MAX_ATTEMPTS
           then Normal (moved PRESENTING_TRY_AGAIN)
           else Normal (moved ATTEMPTS_EXHAUSTED)
  | PRESENTING_TRY_AGAIN =>
      if isCorrect ev then Normal (moved CHALLENGE_SOLVED_CORRECTLY)
      else Normal (moved ATTEMPTS_EXHAUSTED)
  | CHALLENGE_SOLVED_CORRECTLY
  | ATTEMPTS_EXHAUSTED
  | DISPLAYING_CORRECT_ANSWER => Throw "InvalidStateError"
  end.

End BAAGameChallenge.

(** ** game/model/ToElementChallenge.js *)

Module ToElementChallenge.
Import BAAChallengeState BAAGameChallenge.

(** [assert && assert( predicate, message )]: the global [assert] is only
    defined when assertions are enabled; it throws when the predicate is
    false. *)
Definition assert (assertEnabled predicate : bool) (message : string)
  : Completion unit :=
  if assertEnabled && negb predicate then Throw message else Normal tt.

(** Lines 47-50: the pass/fail boolean. *)
Definition isCorrectFor (answer submitted : NumberAtom.t)
           (submittedNeutralOrIon : string) : bool :=
  (NumberAtom.protonCount submitted =? NumberAtom.protonCount answer)
  && (NumberAtom.neutronCount submitted =? NumberAtom.neutronCount answer)
  && ((String.eqb submittedNeutralOrIon "neutral"
       && (NumberAtom.charge answer =? 0))
      || (String.eqb submittedNeutralOrIon "ion"
          && negb (NumberAtom.charge answer =? 0))).

(** Line 52: [charge === 0 ? 'neutral' : 'ion']. *)
Definition chargeClassification (charge : Z) : string :=
  if charge =? 0 then "neutral" else "ion".

(** checkAnswer ends in the call to [handleEvaluatedAnswer]; the model
    returns the arguments of that call. *)
Definition checkAnswer (assertEnabled : bool) (this : BAAGameChallenge.t)
           (submitted : NumberAtom.t) (submittedNeutralOrIon : string)
  : Completion EvaluatedAnswer :=
  _ <- assert assertEnabled
         (BAAChallengeState.eqb (challengeState this) PRESENTING_CHALLENGE)
         (String.append "Unexpected challenge state: "
                        (value (challengeState this))) ;;
  let correct :=
    isCorrectFor (answerAtom this) submitted submittedNeutralOrIon in
  Normal
    {| submittedAtom := submitted;
       isCorrect := correct;
       emitMessageOptions :=
         Some {| correctCharge :=
                   chargeClassification (NumberAtom.charge (answerAtom this));
                 submittedCharge := submittedNeutralOrIon |} |}.

(** The answer that checkAnswer hands on when its assertion lets it pass. *)
Definition evaluated (this : BAAGameChallenge.t) (submitted : NumberAtom.t)
           (declared : string) : EvaluatedAnswer :=
  {| submittedAtom := submitted;
     isCorrect := isCorrectFor (answerAtom this) submitted declared;
     emitMessageOptions :=
       Some {| correctCharge :=
                 chargeClassification (NumberAtom.charge (answerAtom this));
               submittedCharge := declared |} |}.

(** The assertion passes when assertions are off or the challenge is being
    presented. *)
Definition assertionPasses (assertEnabled : bool) (this : BAAGameChallenge.t)
  : Prop :=
  assertEnabled = false \/ challengeState this = PRESENTING_CHALLENGE.

(** The reading under which a wrong neutral/ion declaration leaves the
    pass/fail boolean as it would be with the matching declaration. *)
Definition verdictUnchangedByDeclaration (assertEnabled : bool)
           (this : BAAGameChallenge.t) (submitted : NumberAtom.t)
           (declared : string) : Prop :=
  exists ev ev',
    checkAnswer assertEnabled this submitted declared = Normal ev /\
    checkAnswer assertEnabled this submitted
      (chargeClassification (NumberAtom.charge (answerAtom this)))
    = Normal ev' /\
    isCorrect ev = isCorrect ev'.

(** checkAnswer together with the call it ends in: the evaluated answer is
    handed to handleEvaluatedAnswer. *)
Definition submit (assertEnabled : bool) (this : BAAGameChallenge.t)
           (submitted : NumberAtom.t) (submittedNeutralOrIon : string)
  : Completion BAAGameChallenge.t :=
  ev <- checkAnswer assertEnabled this submitted submittedNeutralOrIon ;;
  handleEvaluatedAnswer this ev.

End ToElementChallenge.


(** ** game/view/InteractiveSymbolNode.js: the three numbers of a symbol *)

Module InteractiveSymbolNode.

(** The node's protonCountProperty, massNumberProperty and chargeProperty. *)
Record t : Type := {
  protonCount : Z;
  massNumber : Z;
  charge : Z
}.

End InteractiveSymbolNode.

(** ** game/view/CountsToSymbolChallengeView.js *)

Module CountsToSymbolChallengeView.

Record t : Type := {
  interactiveSymbolNode : InteractiveSymbolNode.t;
  challenge : BAAGameChallenge.t
}.

(** Lines 68-72: the atom built from the numbers entered in the symbol. *)
Definition userSubmittedAtom (this : t) : NumberAtom.t :=
  NumberAtom.new
    (InteractiveSymbolNode.protonCount (interactiveSymbolNode this))
    (InteractiveSymbolNode.massNumber (interactiveSymbolNode this)
     - InteractiveSymbolNode.protonCount (interactiveSymbolNode this))
    (InteractiveSymbolNode.protonCount (interactiveSymbolNode this)
     - InteractiveSymbolNode.charge (interactiveSymbolNode this)).

Definition checkAnswer (this : t) : BAAGameChallenge.EvaluatedAnswer :=
  BAAGameChallenge.checkAnswer (challenge this) (userSubmittedAtom this).

Definition displayCorrectAnswer (this : t) : t :=
  let answer := BAAGameChallenge.answerAtom (challenge this) in
  {| interactiveSymbolNode :=
       {| InteractiveSymbolNode.protonCount := NumberAtom.protonCount answer;
          InteractiveSymbolNode.massNumber := NumberAtom.massNumber answer;
          InteractiveSymbolNode.charge := NumberAtom.charge answer |};
     challenge := challenge this |}.

End CountsToSymbolChallengeView.

(** ** game/view/ToElementProblemView.js *)

Module ToElementProblemView.

Record t : Type := {
  periodicTableAtom : NumberAtom.t;
  neutralOrIon : string;
  problem : BAAGameChallenge.t
}.

(** Initial value of the [neutralOrIon] property. *)
Definition noSelection : string := "noSelection".

(** The check-answer button is enabled once a choice has been made. *)
Definition checkAnswerButtonEnabled (this : t) : bool :=
  negb (String.eqb (neutralOrIon this) noSelection).

Definition checkAnswer (assertEnabled : bool) (this : t)
  : Completion BAAGameChallenge.EvaluatedAnswer :=
  ToElementChallenge.checkAnswer assertEnabled (problem this)
    (periodicTableAtom this) (neutralOrIon this).

Definition clearAnswer (this : t) : t :=
  {| periodicTableAtom := NumberAtom.new 0 0 0;
     neutralOrIon := noSelection;
     problem := problem this |}.

Definition displayCorrectAnswer (this : t) : t :=
  let answer := BAAGameChallenge.answerAtom (problem this) in
  {| periodicTableAtom :=
       NumberAtom.new (NumberAtom.protonCount answer)
                      (NumberAtom.neutronCount answer)
                      (NumberAtom.electronCount answer);
     neutralOrIon :=
       if NumberAtom.charge answer =? 0 then "neutral" else "ion";
     problem := problem this |}.

End ToElementProblemView.

(** ** game/view/BAAGameScreenView.js: the listener on the game state *)

Module BAAGameScreenView.

(** The states the listener tells apart: the two named game states, and a
    challenge (any state object with a [createView] method). *)
Inductive GameState : Type :=
| CHOOSING_LEVEL
| LEVEL_COMPLETED
| PresentingChallenge (challenge : BAAGameChallenge.t).

(** What the listener reads from the game model. *)
Record GameModel : Type := {
  score : Z;
  level : Z;
  provideFeedback : bool
}.

(** The arguments the level-completed dialog is built from (the timer values
    are passed through untouched and are left out). *)
Record LevelCompletedNode : Type := {
  shownLevel : Z;
  shownScore : Z;
  perfectScore : Z;
  numberOfChallenges : Z
}.

Inductive SceneNode : Type :=
| StartGameLevelNode
| RewardNode
| LevelCompleted (node : LevelCompletedNode)
| ChallengeView (challenge : BAAGameChallenge.t)
| Scoreboard.

Inductive GameAudio : Type :=
| gameOverPerfectScore
| gameOverImperfectScore.

(** The view: the children of the root node, the two nullable fields, and the
    audio feedback played so far (most recent first). *)
Record t : Type := {
  rootNode : list SceneNode;
  rewardNode : option SceneNode;
  levelCompletedNode : option LevelCompletedNode;
  played : list GameAudio
}.

Section Listener.

(** BAAGameModel.CHALLENGES_PER_LEVEL and the points of a first-attempt
    solution: constants of game/model/BAAGameModel.js, which is not among the
    sources. *)
Variables (CHALLENGES_PER_LEVEL POINTS_FOR_FIRST_ATTEMPT : Z).

(** BAAQueryParameters.reward: the query parameter that asks for the reward
    to be shown. *)
Variable reward : bool.

(** Modelled from the spec: BAAGameModel.MAX_POINTS_PER_GAME_LEVEL, the
    theoretical maximum of a level (section 4.4: count times
    POINTS_FOR_FIRST_ATTEMPT). *)
Definition MAX_POINTS_PER_GAME_LEVEL : Z :=
  CHALLENGES_PER_LEVEL * POINTS_FOR_FIRST_ATTEMPT.

(** Lines 104-141. *)
Definition levelCompleted (gameModel : GameModel) (self : t) : t :=
  let perfect := (score gameModel =? MAX_POINTS_PER_GAME_LEVEL) || reward in
  let self1 :=
    if perfect then
      {| rootNode := [RewardNode];
         rewardNode := Some RewardNode;
         levelCompletedNode := levelCompletedNode self;
         played := gameOverPerfectScore :: played self |}
    else if 0 <? score gameModel then
      {| rootNode := [];
         rewardNode := rewardNode self;
         levelCompletedNode := levelCompletedNode self;
         played := gameOverImperfectScore :: played self |}
    else
      {| rootNode := [];
         rewardNode := rewardNode self;
         levelCompletedNode := levelCompletedNode self;
         played := played self |} in
  if provideFeedback gameModel then
    let node :=
      {| shownLevel := level gameModel + 1;
         shownScore := score gameModel;
         perfectScore := MAX_POINTS_PER_GAME_LEVEL;
         numberOfChallenges := CHALLENGES_PER_LEVEL |} in
    {| rootNode := rootNode self1 ++ [LevelCompleted node];
       rewardNode := rewardNode self1;
       levelCompletedNode := Some node;
       played := played self1 |}
  else self1.

(** The listener linked to [gameModel.stateProperty] (lines 88-154); the
    disposal of the previous state's view is not modelled. *)
Definition stateListener (gameModel : GameModel) (state : GameState)
           (self : t) : t :=
  match state with
  | CHOOSING_LEVEL =>
      {| rootNode := [StartGameLevelNode];
         rewardNode := None;
         levelCompletedNode := None;
         played := played self |}
  | LEVEL_COMPLETED => levelCompleted gameModel self
  | PresentingChallenge c =>
      {| rootNode := [ChallengeView c; Scoreboard];
         rewardNode := rewardNode self;
         levelCompletedNode := levelCompletedNode self;
         played := played self |}
  end.

End Listener.

(** The two outcomes of a completed level, read off the view before and
    after the listener ran: the celebration (reward node shown and the
    perfect-score sound played), and the ordinary completion (no reward node
    added, and the imperfect-score sound when some points were scored). *)
Definition perfectOutcome (before after : t) : Prop :=
  rewardNode after = Some RewardNode /\
  In RewardNode (rootNode after) /\
  played after = gameOverPerfectScore :: played before.

Definition normalOutcome (gameModel : GameModel) (before after : t) : Prop :=
  ~ In RewardNode (rootNode after) /\
  rewardNode after = rewardNode before /\
  played after
  = if 0 <? score gameModel
    then gameOverImperfectScore :: played before
    else played before.

End BAAGameScreenView.

(** ** Particles, buckets and the particle atom

    Particle and ParticleAtom (SHRED) and SphereBucket (PHETCOMMON) are
    library types.  Their collections are lists, a particle is identified by
    its type and a serial number, and positions are not modelled: the one
    place where they decide something, the distance comparison in
    [extractClosestParticle], is a parameter. *)

Module Particle.

Inductive ParticleType : Type := proton | neutron | electron.

Record t : Type := {
  type : ParticleType;
  id : nat
}.

Definition sameType (a b : ParticleType) : bool :=
  match a, b with
  | proton, proton | neutron, neutron | electron, electron => true
  | _, _ => false
  end.

(** Object identity. *)
Definition same (a b : t) : bool :=
  sameType (type a) (type b) && Nat.eqb (id a) (id b).

End Particle.

Module ObservableArray.

Definition contains (particle : Particle.t) (l : list Particle.t) : bool :=
  existsb (Particle.same particle) l.

(** Removes the first occurrence. *)
Fixpoint remove (particle : Particle.t) (l : list Particle.t)
  : list Particle.t :=
  match l with
  | [] => []
  | q :: rest =>
      if Particle.same particle q then rest else q :: remove particle rest
  end.

End ObservableArray.

Module SphereBucket.

(** The particles held by the bucket, in the order in which they were added. *)
Definition t : Type := list Particle.t.

Definition containsParticle (bucket : t) (particle : Particle.t) : bool :=
  ObservableArray.contains particle bucket.

Definition addParticleFirstOpen (particle : Particle.t) (bucket : t) : t :=
  List.app bucket [particle].

(** Differs from [addParticleFirstOpen] only in the place the particle is
    given inside the bucket. *)
Definition addParticleNearestOpen (particle : Particle.t) (bucket : t) : t :=
  List.app bucket [particle].

Section Closest.

(** [closer p q]: particle [p] is strictly closer to the requested position
    than particle [q]. *)
Variable closer : Particle.t -> Particle.t -> bool.

(** The scan for the closest particle: the first particle is taken, and a
    later one replaces it only when it is strictly closer. *)
Definition closestParticle (bucket : t) : option Particle.t :=
  fold_left
    (fun closest particle =>
       match closest with
       | None => Some particle
       | Some c => if closer particle c then Some particle else Some c
       end)
    bucket None.

(** The closest particle (null for an empty bucket) and the bucket without
    it. *)
Definition extractClosestParticle (bucket : t) : option Particle.t * t :=
  match closestParticle bucket with
  | None => (None, bucket)
  | Some particle => (Some particle, ObservableArray.remove particle bucket)
  end.

End Closest.

End SphereBucket.

Module ParticleAtom.

Record t : Type := {
  protons : list Particle.t;
  neutrons : list Particle.t;
  electrons : list Particle.t
}.

Definition empty : t := {| protons := []; neutrons := []; electrons := [] |}.

Definition addParticle (particle : Particle.t) (atom : t) : t :=
  match Particle.type particle with
  | Particle.proton =>
      {| protons := List.app (protons atom) [particle];
         neutrons := neutrons atom;
         electrons := electrons atom |}
  | Particle.neutron =>
      {| protons := protons atom;
         neutrons := List.app (neutrons atom) [particle];
         electrons := electrons atom |}
  | Particle.electron =>
      {| protons := protons atom;
         neutrons := neutrons atom;
         electrons := List.app (electrons atom) [particle] |}
  end.

Definition removeParticle (particle : Particle.t) (atom : t) : Completion t :=
  if ObservableArray.contains particle (protons atom) then
    Normal {| protons := ObservableArray.remove particle (protons atom);
              neutrons := neutrons atom;
              electrons := electrons atom |}
  else if ObservableArray.contains particle (neutrons atom) then
    Normal {| protons := protons atom;
              neutrons := ObservableArray.remove particle (neutrons atom);
              electrons := electrons atom |}
  else if ObservableArray.contains particle (electrons atom) then
    Normal {| protons := protons atom;
              neutrons := neutrons atom;
              electrons := ObservableArray.remove particle (electrons atom) |}
  else Throw "Attempt to remove particle that is not in this particle atom.".

(** protonCountProperty, neutronCountProperty, electronCountProperty. *)
Definition protonCount (atom : t) : Z := Z.of_nat (List.length (protons atom)).
Definition neutronCount (atom : t) : Z :=
  Z.of_nat (List.length (neutrons atom)).
Definition electronCount (atom : t) : Z :=
  Z.of_nat (List.length (electrons atom)).

End ParticleAtom.

(** ** common/model/BuildAnAtomModel.js *)

Module BuildAnAtomModel.
Import Particle.

Definition NUM_PROTONS : nat := 10.
Definition NUM_NEUTRONS : nat := 13.
Definition NUM_ELECTRONS : nat := 10.

Record Buckets : Type := {
  protonBucket : SphereBucket.t;
  neutronBucket : SphereBucket.t;
  electronBucket : SphereBucket.t
}.

Record t : Type := {
  particleAtom : ParticleAtom.t;
  buckets : Buckets
}.

(** [_.times( n, ... )] creating the particles of one type. *)
Definition particles (type : ParticleType) (n : nat) : list Particle.t :=
  map (fun i => {| Particle.type := type; Particle.id := i |}) (seq 0 n).

(** The constructor: every particle starts in the bucket of its type. *)
Definition create : t :=
  {| particleAtom := ParticleAtom.empty;
     buckets :=
       {| protonBucket := particles proton NUM_PROTONS;
          neutronBucket := particles neutron NUM_NEUTRONS;
          electronBucket := particles electron NUM_ELECTRONS |} |}.

(** The bucket that the constructor ties to the particles of a type, and the
    collection of the atom that holds them. *)
Definition bucketOf (type : ParticleType) (this : t) : SphereBucket.t :=
  match type with
  | proton => protonBucket (buckets this)
  | neutron => neutronBucket (buckets this)
  | electron => electronBucket (buckets this)
  end.

Definition particlesInAtom (type : ParticleType) (this : t)
  : list Particle.t :=
  match type with
  | proton => ParticleAtom.protons (particleAtom this)
  | neutron => ParticleAtom.neutrons (particleAtom this)
  | electron => ParticleAtom.electrons (particleAtom this)
  end.

Definition setBucket (type : ParticleType) (bucket : SphereBucket.t)
           (this : t) : t :=
  {| particleAtom := particleAtom this;
     buckets :=
       match type with
       | proton =>
           {| protonBucket := bucket;
              neutronBucket := neutronBucket (buckets this);
              electronBucket := electronBucket (buckets this) |}
       | neutron =>
           {| protonBucket := protonBucket (buckets this);
              neutronBucket := bucket;
              electronBucket := electronBucket (buckets this) |}
       | electron =>
           {| protonBucket := protonBucket (buckets this);
              neutronBucket := neutronBucket (buckets this);
              electronBucket := bucket |}
       end |}.

Definition setParticleAtom (atom : ParticleAtom.t) (this : t) : t :=
  {| particleAtom := atom; buckets := buckets this |}.

(** placeNucleon (lines 128-135): into the atom when the particle is within
    the capture radius, back to its bucket otherwise.  [near] is the outcome
    of the distance test. *)
Definition placeNucleon (near : bool) (particle : Particle.t) (this : t) : t :=
  let type := Particle.type particle in
  if near then
    setParticleAtom (ParticleAtom.addParticle particle (particleAtom this))
                    this
  else
    setBucket type
      (SphereBucket.addParticleNearestOpen particle (bucketOf type this)) this.

(** The listener that the constructor links to a particle's
    userControlledProperty (lines 152-156 and 167-171; the electrons'
    listener, lines 182-191, does the same with a radius of its own), run
    when the particle is released: a particle that is not in its bucket is
    placed. *)
Definition released (near : bool) (particle : Particle.t) (this : t) : t :=
  if SphereBucket.containsParticle
       (bucketOf (Particle.type particle) this) particle
  then this
  else placeNucleon near particle this.

(** Lines 293-305.  [particleCollection] is one of the atom's own arrays, so
    the model names it by its type and reads it from the current state. *)
Definition _moveParticlesFromAtomToBucket (type : ParticleType) (this : t)
  : Completion t :=
  let particlesToRemove := particlesInAtom type this in
  fold_left
    (fun (state : Completion t) particle =>
       self <- state ;;
       atom <- ParticleAtom.removeParticle particle (particleAtom self) ;;
       Normal
         (setBucket type
            (SphereBucket.addParticleFirstOpen particle (bucketOf type self))
            (setParticleAtom atom self)))
    particlesToRemove (Normal this).

Section SetAtomConfiguration.

Variable closer : Particle.t -> Particle.t -> bool.

(** Lines 357-362, the first [while] loop of moveParticlesToAtom.  The
    particle is put at the centre of the atom before it is released, so the
    listener's distance test succeeds. *)
Fixpoint moveFromBucket (fuel : nat) (currentCountInAtom targetCountInAtom : Z)
         (type : ParticleType) (this : t) : Completion (Z * t) :=
  if currentCountInAtom <? targetCountInAtom then
    match fuel with
    | O => OutOfFuel
    | S fuel' =>
        match SphereBucket.extractClosestParticle closer (bucketOf type this)
        with
        | (None, _) =>
            Throw "TypeError: Cannot read property of null"
        | (Some particle, bucket) =>
            moveFromBucket fuel' (currentCountInAtom + 1) targetCountInAtom
              type (released true particle (setBucket type bucket this))
        end
    end
  else Normal (currentCountInAtom, this).

(** Lines 363-366, the second [while] loop. *)
Fixpoint moveToBucket (fuel : nat) (currentCountInAtom targetCountInAtom : Z)
         (type : ParticleType) (this : t) : Completion (Z * t) :=
  if targetCountInAtom <? currentCountInAtom then
    match fuel with
    | O => OutOfFuel
    | S fuel' =>
        self <- _moveParticlesFromAtomToBucket type this ;;
        moveToBucket fuel' (currentCountInAtom - 1) targetCountInAtom
          type self
    end
  else Normal (currentCountInAtom, this).

(** Lines 356-367.  Each loop changes the count by one per round, so the
    distance between the two counts is fuel enough. *)
Definition moveParticlesToAtom (currentCountInAtom targetCountInAtom : Z)
           (type : ParticleType) (this : t) : Completion t :=
  r <- moveFromBucket (Z.to_nat (targetCountInAtom - currentCountInAtom))
         currentCountInAtom targetCountInAtom type this ;;
  r' <- moveToBucket (Z.to_nat (fst r - targetCountInAtom))
          (fst r) targetCountInAtom type (snd r) ;;
  Normal (snd r').

(** Lines 351-390. *)
Definition setAtomConfiguration (numberAtom : NumberAtom.t) (this : t)
  : Completion t :=
  self1 <- moveParticlesToAtom
             (Z.of_nat (List.length (ParticleAtom.protons (particleAtom this))))
             (NumberAtom.protonCount numberAtom) proton this ;;
  self2 <- moveParticlesToAtom
             (Z.of_nat
                (List.length (ParticleAtom.neutrons (particleAtom self1))))
             (NumberAtom.neutronCount numberAtom) neutron self1 ;;
  moveParticlesToAtom
    (Z.of_nat (List.length (ParticleAtom.electrons (particleAtom self2))))
    (NumberAtom.electronCount numberAtom) electron self2.

End SetAtomConfiguration.

(** All particles of one type that the model holds, in the atom or in the
    bucket. *)
Definition inventory (type : ParticleType) (this : t) : list Particle.t :=
  List.app (particlesInAtom type this) (bucketOf type this).

(** Every particle sits with the particles of its own type, and no particle
    is held twice. *)
Definition wellFormed (this : t) : Prop :=
  forall type,
    Forall (fun particle => Particle.type particle = type)
           (inventory type this) /\
    NoDup (inventory type this).

(** The number of particles of a type in the atom ([protons.length] and its
    siblings). *)
Definition countInAtom (type : ParticleType) (this : t) : Z :=
  Z.of_nat (List.length (particlesInAtom type this)).

(** The count of a type that a NumberAtom asks for. *)
Definition targetCount (type : ParticleType) (numberAtom : NumberAtom.t) : Z :=
  match type with
  | proton => NumberAtom.protonCount numberAtom
  | neutron => NumberAtom.neutronCount numberAtom
  | electron => NumberAtom.electronCount numberAtom
  end.

Section NucleusStable.

(** AtomIdentifier.isStable (SHRED), a table of the stable isotopes. *)
Variable isStable : Z -> Z -> bool.

(** Lines 197-199, the derivation of nucleusStableProperty. *)
Definition nucleusStable (protonCount neutronCount : Z) : bool :=
  if 0 <? protonCount + neutronCount
  then isStable protonCount neutronCount
  else true.

(** Lines 195-205: the property derived from the atom's proton and neutron
    counts. *)
Definition nucleusStableProperty (this : t) : bool :=
  nucleusStable (ParticleAtom.protonCount (particleAtom this))
                (ParticleAtom.neutronCount (particleAtom this)).

End NucleusStable.

End BuildAnAtomModel.

(** ** Concrete challenges and models used below *)

Module Fixtures.

(** A lithium ion: three protons, four neutrons, one electron, charge +2. *)
Definition lithiumIon : NumberAtom.t := NumberAtom.new 3 4 1.

(** Neutral carbon-12. *)
Definition carbon : NumberAtom.t := NumberAtom.new 6 6 6.

Definition lithiumChallenge : BAAGameChallenge.t :=
  BAAGameChallenge.create lithiumIon "counts-to-element".

(** The same challenge after a first wrong answer. *)
Definition lithiumRetry : BAAGameChallenge.t :=
  {| BAAGameChallenge.answerAtom := lithiumIon;
     BAAGameChallenge.challengeType := "counts-to-element";
     BAAGameChallenge.challengeState := BAAChallengeState.PRESENTING_TRY_AGAIN;
     BAAGameChallenge.attemptsMade := 1 |}.

(** The first particle found is kept: no later particle counts as closer. *)
Definition firstFound (p q : Particle.t) : bool := false.

(** A stability table that calls no nucleus stable. *)
Definition nothingStable (protonCount neutronCount : Z) : bool := false.

(** A level finished without a single point. *)
Definition scoreless : BAAGameScreenView.GameModel :=
  {| BAAGameScreenView.score := 0;
     BAAGameScreenView.level := 0;
     BAAGameScreenView.provideFeedback := true |}.

(** A model whose atom holds a carbon-12 nucleus. *)
Definition carbonNucleus : BuildAnAtomModel.t :=
  {| BuildAnAtomModel.particleAtom :=
       {| ParticleAtom.protons :=
            BuildAnAtomModel.particles Particle.proton 6;
          ParticleAtom.neutrons :=
            BuildAnAtomModel.particles Particle.neutron 6;
          ParticleAtom.electrons := [] |};
     BuildAnAtomModel.buckets :=
       {| BuildAnAtomModel.protonBucket := [];
          BuildAnAtomModel.neutronBucket := [];
          BuildAnAtomModel.electronBucket := [] |} |}.

Definition emptyView : BAAGameScreenView.t :=
  {| BAAGameScreenView.rootNode := [];
     BAAGameScreenView.rewardNode := None;
     BAAGameScreenView.levelCompletedNode := None;
     BAAGameScreenView.played := [] |}.

End Fixtures.

(** ** Numbers shown as text *)

Module JSNumber.

(** The text of an integer: decimal digits, with a minus sign when
    negative. *)
Definition toString (n : Z) : string :=
  DecimalString.NilEmpty.string_of_int (Z.to_int n).


End JSNumber.

(** ** symbol/view/SymbolNode.js: the listeners that fill in the symbol *)

Module SymbolNode.

Record Label : Type := {
  text : string;
  fill : string
}.

Section Listeners.

(** AtomIdentifier.getSymbol, the table of chemical symbols. *)
Variable getSymbol : Z -> string.

(** Lines 49-53. *)
Definition symbolText (protonCount : Z) : string :=
  if 0 <? protonCount then getSymbol protonCount else "".

End Listeners.

(** Lines 64-68 and 80-84: the proton count and the atomic mass are shown
    as they are. *)
Definition protonCountText (protonCount : Z) : string :=
  JSNumber.toString protonCount.

Definition atomicMassText (atomicMass : Z) : string :=
  JSNumber.toString atomicMass.



End SymbolNode.

(** ** common/view/AtomNode.js: the labels of the atom *)

Module AtomNode.

Record Label : Type := {
  text : string;
  fill : string
}.

(** ParticleAtom.getWeight and ParticleAtom.getCharge: the number of
    nucleons, and protons minus electrons. *)
Definition getWeight (atom : ParticleAtom.t) : Z :=
  ParticleAtom.protonCount atom + ParticleAtom.neutronCount atom.

Definition getCharge (atom : ParticleAtom.t) : Z :=
  ParticleAtom.protonCount atom - ParticleAtom.electronCount atom.

(** Line 66: the X that marks the place of the nucleus. *)
Definition centerMarkerVisible (atom : ParticleAtom.t) : bool :=
  getWeight atom =? 0.



(** Lines 126-148. *)
Definition updateIonIndicator (atom : ParticleAtom.t) : Label :=
  if 0 <? ParticleAtom.protonCount atom then
    let charge := getCharge atom in
    if charge <? 0 then {| text := "- Ion"; fill := "blue" |}
    else if 0 <? charge then {| text := "+ Ion"; fill := "red" |}
    else {| text := "Neutral Atom"; fill := "black" |}
  else {| text := ""; fill := "black" |}.

Section Identifier.

(** AtomIdentifier.getName and AtomIdentifier.isStable. *)
Variable getName : Z -> string.
Variable isStable : Z -> Z -> bool.

(** Lines 94-104 (the scaling of the label is left out). *)
Definition updateElementName (atom : ParticleAtom.t) : string :=
  let name := getName (ParticleAtom.protonCount atom) in
  if (String.length name =? 0)%nat then "" else name.

(** Lines 168-183. *)
Definition updateStabilityIndicator (atom : ParticleAtom.t) : string :=
  if 0 <? ParticleAtom.protonCount atom then
    if isStable (ParticleAtom.protonCount atom)
                (ParticleAtom.neutronCount atom)
    then "Stable" else "Unstable"
  else "".

End Identifier.

End AtomNode.

(** ** common/view/AtomView.js: nucleon layers and electron visibility *)

Module AtomView.

Definition NUM_NUCLEON_LAYERS : nat := 5.

(** A layer holds particle views; a view is named by its particle, in the
    order of the layer's children. *)
Definition Layer : Type := list Particle.t.

(** The constructor's layers, before any view is added. *)
Definition emptyLayers : list Layer := repeat [] NUM_NUCLEON_LAYERS.

(** Lines 152-160: the first layer that holds the nucleon's view gives it
    up; null (None) when no layer holds it. *)
Fixpoint removeFromLayers (nucleon : Particle.t) (nucleonLayers : list Layer)
  : option (list Layer) :=
  match nucleonLayers with
  | [] => None
  | layer :: rest =>
      if ObservableArray.contains nucleon layer
      then Some (ObservableArray.remove nucleon layer :: rest)
      else option_map (cons layer) (removeFromLayers nucleon rest)
  end.

(** [nucleonLayers[ index ].addChild( view )]. *)
Fixpoint addChild (index : nat) (view : Particle.t)
         (nucleonLayers : list Layer) : list Layer :=
  match nucleonLayers, index with
  | [], _ => []
  | layer :: rest, O => List.app layer [view] :: rest
  | layer :: rest, S index' => layer :: addChild index' view rest
  end.

(** [nucleonLayers[ zLayer ]]: undefined (None) outside the array. *)
Definition layerAt (zLayer : Z) (nucleonLayers : list Layer) : option Layer :=
  if zLayer <? 0 then None else nth_error nucleonLayers (Z.to_nat zLayer).

(** Lines 135-166: the listener on a nucleon's zLayerProperty. *)
Definition zLayerListener (assertEnabled : bool) (nucleon : Particle.t)
           (zLayer : Z) (nucleonLayers : list Layer)
  : Completion (list Layer) :=
  _ <- ToElementChallenge.assert assertEnabled
         (zLayer <? Z.of_nat (List.length nucleonLayers))
         "zLayer for nucleon exceeds number of layers, max number may need increasing." ;;
  match layerAt zLayer nucleonLayers with
  | None => Throw "TypeError: nucleonLayers[ zLayer ] is undefined"
  | Some layer =>
      if ObservableArray.contains nucleon layer then Normal nucleonLayers
      else
        match removeFromLayers nucleon nucleonLayers with
        | None =>
            _ <- ToElementChallenge.assert assertEnabled false
                   "Particle view not found during relayering" ;;
            Throw "TypeError: addChild of null"
        | Some layers => Normal (addChild (Z.to_nat zLayer) nucleon layers)
        end
  end.


End AtomView.

(** ** buildanatom/view/ChargeComparisonDisplay.js *)

Module ChargeComparisonDisplay.

(** What the display shows: which of its plus and minus symbols are visible
    (in the order of their places, left to right), whether the box around
    the matched pairs is visible, and how many pairs it spans (the width of
    the box is computed from that number). *)
Record t : Type := {
  plusses : list bool;
  minuses : list bool;
  matchBoxVisible : bool;
  numMatchedSymbols : Z
}.

(** [symbols[ index ].visible = visible]; an index past the end of the array
    would throw and is never used by the loops below. *)
Fixpoint setVisible (index : nat) (visible : bool) (symbols : list bool)
  : list bool :=
  match symbols, index with
  | [], _ => []
  | _ :: rest, O => visible :: rest
  | v :: rest, S index' => v :: setVisible index' visible rest
  end.

Section Display.

(** BuildAnAtomModel.MAX_CHARGE. *)
Variable MAX_CHARGE : nat.

(** The constructor: MAX_CHARGE symbols of each kind, the box hidden. *)
Definition create : t :=
  {| plusses := repeat true MAX_CHARGE;
     minuses := repeat true MAX_CHARGE;
     matchBoxVisible := false;
     numMatchedSymbols := 0 |}.

(** Lines 118-120 and 123-125: one of the two [for] loops. *)
Definition toggle (count : Z) (symbols : list bool) : list bool :=
  fold_left
    (fun acc index => setVisible index (Z.of_nat index <? count) acc)
    (seq 0 MAX_CHARGE) symbols.

(** Lines 115-131. *)
Definition update (protonCount electronCount : Z) (this : t) : t :=
  let matched := Z.min protonCount electronCount in
  {| plusses := toggle protonCount (plusses this);
     minuses := toggle electronCount (minuses this);
     matchBoxVisible := 0 <? matched;
     numMatchedSymbols := matched |}.

End Display.

(** The number of symbols shown. *)
Definition shown (symbols : list bool) : Z :=
  Z.of_nat (List.length (filter (fun visible => visible) symbols)).

End ChargeComparisonDisplay.

(** ** game/view/NonInteractiveSchematicAtomNode.js *)

Module NonInteractiveSchematicAtomNode.

(** The particle atom of the node, the model particles it keeps for
    disposal, and the particle views in the order in which they were made
    (the later re-ordering of the views inside the nucleus depends on
    positions and is left out). *)
Record t : Type := {
  particleAtom : ParticleAtom.t;
  modelParticles : list Particle.t;
  particleViews : list Particle.t
}.

Definition empty : t :=
  {| particleAtom := ParticleAtom.empty;
     modelParticles := [];
     particleViews := [] |}.

(** Lines 50-64: [_.times( number, ... )] runs its body for 0, 1, ...,
    number - 1, and not at all when the number is below one. *)
Definition createAndAddParticles (particleType : Particle.ParticleType)
           (number : Z) (this : t) : t :=
  fold_left
    (fun acc index =>
       let particle :=
         {| Particle.type := particleType; Particle.id := index |} in
       {| particleAtom := ParticleAtom.addParticle particle (particleAtom acc);
          modelParticles := List.app (modelParticles acc) [particle];
          particleViews := List.app (particleViews acc) [particle] |})
    (seq 0 (Z.to_nat number)) this.

(** The particles that the rounds [a], ..., [a + n - 1] of that loop make. *)
Definition made (type : Particle.ParticleType) (a n : nat) : list Particle.t :=
  map (fun index => {| Particle.type := type; Particle.id := index |})
      (seq a n).

(** Lines 67-69. *)
Definition create (numberAtom : NumberAtom.t) : t :=
  createAndAddParticles Particle.electron
    (NumberAtom.electronCount numberAtom)
    (createAndAddParticles Particle.neutron
       (NumberAtom.neutronCount numberAtom)
       (createAndAddParticles Particle.proton
          (NumberAtom.protonCount numberAtom) empty)).

End NonInteractiveSchematicAtomNode.

(** ** common/model/BuildAnAtomModel.js: the whole model object and reset *)

Module BuildAnAtomModelObject.
Import Particle.

(** The settings, the two arrays that hold every particle of the model, and
    the atom and buckets. *)
Record t : Type := {
  showElementName : bool;
  showNeutralOrIon : bool;
  showStableOrUnstable : bool;
  electronShellDepiction : string;
  nucleons : list Particle.t;
  electrons : list Particle.t;
  particles : BuildAnAtomModel.t
}.

(** Lines 229-230. *)
Definition MAX_CHARGE : nat :=
  Nat.max BuildAnAtomModel.NUM_PROTONS BuildAnAtomModel.NUM_ELECTRONS.

Definition MAX_ELECTRONS : nat := BuildAnAtomModel.NUM_ELECTRONS.

(** The constructor (lines 56-226). *)
Definition create : t :=
  {| showElementName := true;
     showNeutralOrIon := true;
     showStableOrUnstable := false;
     electronShellDepiction := "orbits";
     nucleons :=
       List.app
         (BuildAnAtomModel.particles proton BuildAnAtomModel.NUM_PROTONS)
         (BuildAnAtomModel.particles neutron BuildAnAtomModel.NUM_NEUTRONS);
     electrons :=
       BuildAnAtomModel.particles electron BuildAnAtomModel.NUM_ELECTRONS;
     particles := BuildAnAtomModel.create |}.

(** The atom cleared and the buckets reset (lines 327-332). *)
Definition cleared : BuildAnAtomModel.t :=
  {| BuildAnAtomModel.particleAtom := ParticleAtom.empty;
     BuildAnAtomModel.buckets :=
       {| BuildAnAtomModel.protonBucket := [];
          BuildAnAtomModel.neutronBucket := [];
          BuildAnAtomModel.electronBucket := [] |} |}.

(** Whether a nucleon is a proton, as reset asks. *)
Definition isProton (particle : Particle.t) : bool :=
  Particle.sameType (Particle.type particle) proton.

(** [bucket.addParticleFirstOpen( particle, false )] on the bucket of the
    given type. *)
Definition addToBucket (type : ParticleType) (particle : Particle.t)
           (model : BuildAnAtomModel.t) : BuildAnAtomModel.t :=
  BuildAnAtomModel.setBucket type
    (SphereBucket.addParticleFirstOpen particle
       (BuildAnAtomModel.bucketOf type model))
    model.

(** Lines 308-348.  The first step, moving particles in transit to their
    destinations, only concerns positions. *)
Definition reset (this : t) : t :=
  let withNucleons :=
    fold_left
      (fun model nucleon =>
         if Particle.sameType (Particle.type nucleon) proton
         then addToBucket proton nucleon model
         else addToBucket neutron nucleon model)
      (nucleons this) cleared in
  let withElectrons :=
    fold_left (fun model particle => addToBucket electron particle model)
              (electrons this) withNucleons in
  {| showElementName := true;
     showNeutralOrIon := true;
     showStableOrUnstable := false;
     electronShellDepiction := "orbits";
     nucleons := nucleons this;
     electrons := electrons this;
     particles := withElectrons |}.

(** setAtomConfiguration on the whole object. *)
Definition setAtomConfiguration (closer : Particle.t -> Particle.t -> bool)
           (numberAtom : NumberAtom.t) (this : t) : Completion t :=
  model <- BuildAnAtomModel.setAtomConfiguration closer numberAtom
             (particles this) ;;
  Normal
    {| showElementName := showElementName this;
       showNeutralOrIon := showNeutralOrIon this;
       showStableOrUnstable := showStableOrUnstable this;
       electronShellDepiction := electronShellDepiction this;
       nucleons := nucleons this;
       electrons := electrons this;
       particles := model |}.

End BuildAnAtomModelObject.

(** ** Further concrete inputs *)

Module Samples.

(** Five protons in the atom, the rest of the particles in their buckets. *)
Definition fiveProtons : BuildAnAtomModel.t :=
  {| BuildAnAtomModel.particleAtom :=
       {| ParticleAtom.protons :=
            BuildAnAtomModel.particles Particle.proton 5;
          ParticleAtom.neutrons := [];
          ParticleAtom.electrons := [] |};
     BuildAnAtomModel.buckets :=
       {| BuildAnAtomModel.protonBucket :=
            map (fun i => {| Particle.type := Particle.proton;
                             Particle.id := i |}) (seq 5 5);
          BuildAnAtomModel.neutronBucket :=
            BuildAnAtomModel.particles Particle.neutron 13;
          BuildAnAtomModel.electronBucket :=
            BuildAnAtomModel.particles Particle.electron 10 |} |}.

Definition proton0 : Particle.t :=
  {| Particle.type := Particle.proton; Particle.id := 0 |}.

Definition neutron0 : Particle.t :=
  {| Particle.type := Particle.neutron; Particle.id := 0 |}.

(** Two nucleons in front, none behind. *)
Definition twoInFront : list AtomView.Layer :=
  [[proton0; neutron0]; []; []; []; []].

(** A model in the middle of play: settings changed, particles moved. *)
Definition played : BuildAnAtomModelObject.t :=
  {| BuildAnAtomModelObject.showElementName := false;
     BuildAnAtomModelObject.showNeutralOrIon := true;
     BuildAnAtomModelObject.showStableOrUnstable := true;
     BuildAnAtomModelObject.electronShellDepiction := "cloud";
     BuildAnAtomModelObject.nucleons :=
       BuildAnAtomModelObject.nucleons BuildAnAtomModelObject.create;
     BuildAnAtomModelObject.electrons :=
       BuildAnAtomModelObject.electrons BuildAnAtomModelObject.create;
     BuildAnAtomModelObject.particles := fiveProtons |}.

End Samples.

(** * Properties *)

(** ** Basic facts *)

Lemma NumberAtom_equals_iff (a b : NumberAtom.t) :
  NumberAtom.equals a b = true <->
  NumberAtom.protonCount a = NumberAtom.protonCount b /\
  NumberAtom.neutronCount a = NumberAtom.neutronCount b /\
  NumberAtom.electronCount a = NumberAtom.electronCount b.
Proof.
  unfold NumberAtom.equals.
  rewrite !andb_true_iff, !Z.eqb_eq. tauto.
Qed.

Lemma NumberAtom_equals_refl (a : NumberAtom.t) : NumberAtom.equals a a = true.
Proof. apply NumberAtom_equals_iff. auto. Qed.

Lemma state_eqb_eq (a b : BAAChallengeState.t) :
  BAAChallengeState.eqb a b = true <-> a = b.
Proof.
  split.
  - destruct a, b; intros H; try reflexivity; discriminate H.
  - intros ->. apply String.eqb_refl.
Qed.

Lemma state_eqb_presenting (s : BAAChallengeState.t) :
  BAAChallengeState.eqb s BAAChallengeState.PRESENTING_CHALLENGE = false <->
  s <> BAAChallengeState.PRESENTING_CHALLENGE.
Proof.
  rewrite <- state_eqb_eq.
  destruct (BAAChallengeState.eqb s BAAChallengeState.PRESENTING_CHALLENGE);
    split; congruence.
Qed.

Lemma chargeClassification_cases (charge : Z) :
  (charge = 0 /\ ToElementChallenge.chargeClassification charge = "neutral") \/
  (charge <> 0 /\ ToElementChallenge.chargeClassification charge = "ion").
Proof.
  unfold ToElementChallenge.chargeClassification.
  destruct (Z.eqb_spec charge 0); [left | right]; split; auto.
Qed.

(** ** ToElementChallenge.checkAnswer *)

Section ToElement.
Import BAAChallengeState BAAGameChallenge ToElementChallenge.

Lemma checkAnswer_passes assertEnabled this submitted declared :
  assertionPasses assertEnabled this ->
  ToElementChallenge.checkAnswer assertEnabled this submitted declared
  = Normal (evaluated this submitted declared).
Proof.
  intros Hpass. unfold ToElementChallenge.checkAnswer, ToElementChallenge.assert.
  destruct Hpass as [-> | ->]; [reflexivity |].
  destruct assertEnabled; reflexivity.
Qed.

Lemma checkAnswer_fires this submitted declared :
  challengeState this <> PRESENTING_CHALLENGE ->
  ToElementChallenge.checkAnswer true this submitted declared
  = Throw (String.append "Unexpected challenge state: "
                         (value (challengeState this))).
Proof.
  intros Hstate. apply state_eqb_presenting in Hstate.
  unfold ToElementChallenge.checkAnswer, ToElementChallenge.assert.
  rewrite Hstate. reflexivity.
Qed.

Lemma isCorrectFor_true_iff answer submitted declared :
  ToElementChallenge.isCorrectFor answer submitted declared = true <->
  NumberAtom.protonCount submitted = NumberAtom.protonCount answer /\
  NumberAtom.neutronCount submitted = NumberAtom.neutronCount answer /\
  ((declared = "neutral" /\ NumberAtom.charge answer = 0) \/
   (declared = "ion" /\ NumberAtom.charge answer <> 0)).
Proof.
  unfold ToElementChallenge.isCorrectFor.
  rewrite !andb_true_iff, orb_true_iff, !andb_true_iff, negb_true_iff.
  rewrite !Z.eqb_eq, Z.eqb_neq, !String.eqb_eq. tauto.
Qed.

Lemma isCorrectFor_classified answer submitted declared :
  ToElementChallenge.isCorrectFor answer submitted declared = true <->
  NumberAtom.protonCount submitted = NumberAtom.protonCount answer /\
  NumberAtom.neutronCount submitted = NumberAtom.neutronCount answer /\
  declared = ToElementChallenge.chargeClassification (NumberAtom.charge answer).
Proof.
  rewrite isCorrectFor_true_iff.
  destruct (chargeClassification_cases (NumberAtom.charge answer))
    as [[Hc ->] | [Hc ->]]; intuition congruence.
Qed.

(** C1: for a to-element challenge and a submission declared 'neutral' or
    'ion', checkAnswer evaluates the answer and reports isCorrect = true
    exactly when the submitted proton count and neutron count equal the
    answer's and the declaration matches the sign of the answer's charge
    ('neutral' iff the charge is 0, 'ion' iff it is not). *)
Theorem toElement_isCorrect_iff :
  forall assertEnabled this submitted declared,
    declared = "neutral" \/ declared = "ion" ->
    assertionPasses assertEnabled this ->
    exists ev,
      ToElementChallenge.checkAnswer assertEnabled this submitted declared
      = Normal ev /\
      (isCorrect ev = true <->
       NumberAtom.protonCount submitted
       = NumberAtom.protonCount (answerAtom this) /\
       NumberAtom.neutronCount submitted
       = NumberAtom.neutronCount (answerAtom this) /\
       (declared = "neutral" <-> NumberAtom.charge (answerAtom this) = 0) /\
       (declared = "ion" <-> NumberAtom.charge (answerAtom this) <> 0)).
Proof.
  intros assertEnabled this submitted declared Hdecl Hpass.
  exists (evaluated this submitted declared). split.
  - now apply checkAnswer_passes.
  - cbn [isCorrect evaluated]. rewrite isCorrectFor_true_iff.
    destruct Hdecl as [-> | ->]; split.
    + intros (Hp & Hn & [[_ Hc] | [Habs _]]); [| discriminate Habs].
      repeat split; auto; try discriminate; intros; congruence.
    + intros (Hp & Hn & [Hc _] & _).
      split; [exact Hp | split; [exact Hn | left; split; auto]].
    + intros (Hp & Hn & [[Habs _] | [_ Hc]]); [discriminate Habs |].
      repeat split; auto; try discriminate; intros; congruence.
    + intros (Hp & Hn & _ & [Hc _]).
      split; [exact Hp | split; [exact Hn | right; split; auto]].
Qed.

(** The lithium ion, submitted as it is and declared an ion. *)
Lemma toElement_isCorrect_iff_witness :
  ("ion" = "neutral" \/ "ion" = "ion") /\
  assertionPasses true Fixtures.lithiumChallenge /\
  exists ev,
    ToElementChallenge.checkAnswer true Fixtures.lithiumChallenge
      Fixtures.lithiumIon "ion" = Normal ev /\
    (isCorrect ev = true <->
     NumberAtom.protonCount Fixtures.lithiumIon
     = NumberAtom.protonCount (answerAtom Fixtures.lithiumChallenge) /\
     NumberAtom.neutronCount Fixtures.lithiumIon
     = NumberAtom.neutronCount (answerAtom Fixtures.lithiumChallenge) /\
     ("ion" = "neutral"
      <-> NumberAtom.charge (answerAtom Fixtures.lithiumChallenge) = 0) /\
     ("ion" = "ion"
      <-> NumberAtom.charge (answerAtom Fixtures.lithiumChallenge) <> 0)).
Proof.
  split; [right; reflexivity |].
  split; [right; reflexivity |].
  apply (toElement_isCorrect_iff true Fixtures.lithiumChallenge
           Fixtures.lithiumIon "ion");
    right; reflexivity.
Defined.

(** C2, as stated, fails: for the lithium ion (charge +2) the counts match
    and only the declaration is wrong, and the pass/fail boolean is false
    where the matching declaration gives true. *)
Lemma charge_mismatch_flips_verdict :
  NumberAtom.protonCount Fixtures.lithiumIon
  = NumberAtom.protonCount (answerAtom Fixtures.lithiumChallenge) /\
  NumberAtom.neutronCount Fixtures.lithiumIon
  = NumberAtom.neutronCount (answerAtom Fixtures.lithiumChallenge) /\
  chargeClassification (NumberAtom.charge (answerAtom Fixtures.lithiumChallenge))
  = "ion" /\
  ToElementChallenge.checkAnswer true Fixtures.lithiumChallenge
    Fixtures.lithiumIon "neutral"
  = Normal {| submittedAtom := Fixtures.lithiumIon;
              isCorrect := false;
              emitMessageOptions :=
                Some {| correctCharge := "ion";
                        submittedCharge := "neutral" |} |} /\
  ToElementChallenge.checkAnswer true Fixtures.lithiumChallenge
    Fixtures.lithiumIon "ion"
  = Normal {| submittedAtom := Fixtures.lithiumIon;
              isCorrect := true;
              emitMessageOptions :=
                Some {| correctCharge := "ion";
                        submittedCharge := "ion" |} |} /\
  ~ verdictUnchangedByDeclaration true Fixtures.lithiumChallenge
      Fixtures.lithiumIon "neutral".
Proof.
  repeat (split; [reflexivity |]).
  intros (ev & ev' & Hev & Hev' & Hsame).
  cbv in Hev, Hev'.
  injection Hev as <-. injection Hev' as <-.
  discriminate Hsame.
Qed.

(** C2, amended: when the proton and neutron counts match and only the
    declaration differs from the classification of the answer's charge, the
    mismatch is reported in the detail (the submitted and the correct
    classification, which differ) and the pass/fail boolean is false, while
    the matching declaration makes it true. *)
Theorem charge_mismatch_reported_and_incorrect :
  forall assertEnabled this submitted declared,
    assertionPasses assertEnabled this ->
    NumberAtom.protonCount submitted
    = NumberAtom.protonCount (answerAtom this) ->
    NumberAtom.neutronCount submitted
    = NumberAtom.neutronCount (answerAtom this) ->
    declared <> chargeClassification (NumberAtom.charge (answerAtom this)) ->
    exists ev ev' detail,
      ToElementChallenge.checkAnswer assertEnabled this submitted declared
      = Normal ev /\
      emitMessageOptions ev = Some detail /\
      submittedCharge detail = declared /\
      correctCharge detail
      = chargeClassification (NumberAtom.charge (answerAtom this)) /\
      submittedCharge detail <> correctCharge detail /\
      isCorrect ev = false /\
      ToElementChallenge.checkAnswer assertEnabled this submitted
        (chargeClassification (NumberAtom.charge (answerAtom this)))
      = Normal ev' /\
      isCorrect ev' = true.
Proof.
  intros assertEnabled this submitted declared Hpass Hp Hn Hdecl.
  eexists; eexists; eexists.
  split; [now apply checkAnswer_passes |].
  split; [reflexivity |].
  split; [reflexivity |].
  split; [reflexivity |].
  split; [exact Hdecl |].
  split.
  - cbn [isCorrect evaluated].
    case_eq (isCorrectFor (answerAtom this) submitted declared); [| reflexivity].
    intros Hcorrect. apply isCorrectFor_classified in Hcorrect.
    destruct Hcorrect as (_ & _ & Hsame). contradiction.
  - split; [now apply checkAnswer_passes |].
    cbn [isCorrect evaluated]. apply isCorrectFor_classified. auto.
Qed.

(** The lithium ion with the right counts, declared neutral. *)
Lemma charge_mismatch_reported_and_incorrect_witness :
  exists ev ev' detail,
    ToElementChallenge.checkAnswer true Fixtures.lithiumChallenge
      Fixtures.lithiumIon "neutral" = Normal ev /\
    emitMessageOptions ev = Some detail /\
    submittedCharge detail = "neutral" /\
    correctCharge detail
    = chargeClassification
        (NumberAtom.charge (answerAtom Fixtures.lithiumChallenge)) /\
    submittedCharge detail <> correctCharge detail /\
    isCorrect ev = false /\
    ToElementChallenge.checkAnswer true Fixtures.lithiumChallenge
      Fixtures.lithiumIon
      (chargeClassification
         (NumberAtom.charge (answerAtom Fixtures.lithiumChallenge)))
    = Normal ev' /\
    isCorrect ev' = true.
Proof.
  apply (charge_mismatch_reported_and_incorrect true Fixtures.lithiumChallenge
           Fixtures.lithiumIon "neutral").
  - right; reflexivity.
  - reflexivity.
  - reflexivity.
  - vm_compute. discriminate.
Defined.

(** C3 (scenario E): when the answer atom has charge +2, a submission with
    the right proton and neutron counts that declares 'neutral' is reported
    with isCorrect = false, correctCharge = 'ion' and submittedCharge =
    'neutral'. *)
Theorem scenario_E_neutral_declared_for_ion :
  forall assertEnabled this submitted,
    assertionPasses assertEnabled this ->
    NumberAtom.charge (answerAtom this) = 2 ->
    NumberAtom.protonCount submitted
    = NumberAtom.protonCount (answerAtom this) ->
    NumberAtom.neutronCount submitted
    = NumberAtom.neutronCount (answerAtom this) ->
    ToElementChallenge.checkAnswer assertEnabled this submitted "neutral"
    = Normal {| submittedAtom := submitted;
                isCorrect := false;
                emitMessageOptions :=
                  Some {| correctCharge := "ion";
                          submittedCharge := "neutral" |} |}.
Proof.
  intros assertEnabled this submitted Hpass Hcharge Hp Hn.
  rewrite checkAnswer_passes by exact Hpass.
  unfold evaluated, isCorrectFor. rewrite Hcharge.
  cbn [chargeClassification Z.eqb negb andb orb String.eqb Ascii.eqb Bool.eqb].
  now rewrite andb_false_r.
Qed.

(** Scenario E on the lithium ion. *)
Lemma scenario_E_neutral_declared_for_ion_witness :
  assertionPasses true Fixtures.lithiumChallenge /\
  NumberAtom.charge (answerAtom Fixtures.lithiumChallenge) = 2 /\
  ToElementChallenge.checkAnswer true Fixtures.lithiumChallenge
    Fixtures.lithiumIon "neutral"
  = Normal {| submittedAtom := Fixtures.lithiumIon;
              isCorrect := false;
              emitMessageOptions :=
                Some {| correctCharge := "ion";
                        submittedCharge := "neutral" |} |}.
Proof.
  split; [right; reflexivity |].
  split; [reflexivity |].
  apply (scenario_E_neutral_declared_for_ion true Fixtures.lithiumChallenge
           Fixtures.lithiumIon); try reflexivity.
  right; reflexivity.
Defined.

End ToElement.

(** ** The state assertion of checkAnswer and the step that follows it *)

Section SubmitFromTryAgain.
Import BAAChallengeState BAAGameChallenge ToElementChallenge.

Lemma checkAnswer_normal_inv assertEnabled this submitted declared ev :
  ToElementChallenge.checkAnswer assertEnabled this submitted declared
  = Normal ev ->
  ev = evaluated this submitted declared /\ assertionPasses assertEnabled this.
Proof.
  unfold ToElementChallenge.checkAnswer, ToElementChallenge.assert, assertionPasses.
  destruct assertEnabled; cbn [andb].
  - destruct (BAAChallengeState.eqb (challengeState this) PRESENTING_CHALLENGE)
      eqn:Hstate; cbn [negb bind].
    + apply state_eqb_eq in Hstate. intros [= <-]. auto.
    + discriminate.
  - cbn [bind]. intros [= <-]. auto.
Qed.

(** C7, as stated, fails: with assertions enabled, a correct submission to a
    challenge in PRESENTING_TRY_AGAIN is stopped by the state assertion. *)
Lemma assertion_fires_in_try_again :
  challengeState Fixtures.lithiumRetry = PRESENTING_TRY_AGAIN /\
  isCorrectFor (answerAtom Fixtures.lithiumRetry) Fixtures.lithiumIon "ion"
  = true /\
  ToElementChallenge.checkAnswer true Fixtures.lithiumRetry
    Fixtures.lithiumIon "ion"
  = Throw "Unexpected challenge state: presentingTryAgain" /\
  ToElementChallenge.submit true Fixtures.lithiumRetry
    Fixtures.lithiumIon "ion"
  = Throw "Unexpected challenge state: presentingTryAgain".
Proof. repeat split. Qed.

(** C7, amended: with assertions enabled, checkAnswer evaluates a submission
    exactly when the challenge is in PRESENTING_CHALLENGE; in
    PRESENTING_TRY_AGAIN its state assertion fires and the challenge is left
    as it was.  Only with assertions disabled is a submission from
    PRESENTING_TRY_AGAIN evaluated, and then a correct one moves the
    challenge to CHALLENGE_SOLVED_CORRECTLY. *)
Theorem checkAnswer_legal_only_when_presenting :
  forall this submitted declared,
    ((exists ev,
        ToElementChallenge.checkAnswer true this submitted declared
        = Normal ev)
     <-> challengeState this = PRESENTING_CHALLENGE) /\
    (challengeState this = PRESENTING_TRY_AGAIN ->
     ToElementChallenge.checkAnswer true this submitted declared
     = Throw "Unexpected challenge state: presentingTryAgain" /\
     ToElementChallenge.submit true this submitted declared
     = Throw "Unexpected challenge state: presentingTryAgain" /\
     (isCorrectFor (answerAtom this) submitted declared = true ->
      exists this',
        ToElementChallenge.submit false this submitted declared
        = Normal this' /\
        challengeState this' = CHALLENGE_SOLVED_CORRECTLY /\
        answerAtom this' = answerAtom this)).
Proof.
  intros this submitted declared. split.
  - split.
    + intros [ev Hev]. apply checkAnswer_normal_inv in Hev.
      destruct Hev as [_ [Habs | Hstate]]; [discriminate Habs | exact Hstate].
    + intros Hstate. eexists. apply checkAnswer_passes. now right.
  - intros Hstate.
    assert (Hfires :
              ToElementChallenge.checkAnswer true this submitted declared
              = Throw "Unexpected challenge state: presentingTryAgain").
    { rewrite checkAnswer_fires by (rewrite Hstate; discriminate).
      now rewrite Hstate. }
    split; [exact Hfires |]. split.
    + unfold submit. now rewrite Hfires.
    + intros Hcorrect. unfold submit.
      rewrite checkAnswer_passes by now left.
      cbn [bind]. unfold handleEvaluatedAnswer.
      rewrite Hstate. cbn [isCorrect evaluated]. rewrite Hcorrect.
      eexists. repeat split.
Qed.

(** The lithium challenge on its retry, assertions disabled. *)
Lemma checkAnswer_legal_only_when_presenting_witness :
  challengeState Fixtures.lithiumRetry = PRESENTING_TRY_AGAIN /\
  isCorrectFor (answerAtom Fixtures.lithiumRetry) Fixtures.lithiumIon "ion"
  = true /\
  exists this',
    ToElementChallenge.submit false Fixtures.lithiumRetry
      Fixtures.lithiumIon "ion" = Normal this' /\
    challengeState this' = CHALLENGE_SOLVED_CORRECTLY /\
    answerAtom this' = answerAtom Fixtures.lithiumRetry.
Proof.
  split; [reflexivity |]. split; [reflexivity |].
  apply (checkAnswer_legal_only_when_presenting Fixtures.lithiumRetry
           Fixtures.lithiumIon "ion"); reflexivity.
Defined.

End SubmitFromTryAgain.

(** ** The challenge states *)

Section ChallengeStates.
Import BAAChallengeState.

(** C8: the enumeration has exactly the five members PRESENTING_CHALLENGE,
    CHALLENGE_SOLVED_CORRECTLY, PRESENTING_TRY_AGAIN, ATTEMPTS_EXHAUSTED and
    DISPLAYING_CORRECT_ANSWER, bound to five different strings, and a new
    challenge starts in PRESENTING_CHALLENGE, the one state in which its
    first answer can be checked under assertions. *)
Theorem challenge_states_exhaustive :
  (forall s : BAAChallengeState.t,
      s = PRESENTING_CHALLENGE \/ s = CHALLENGE_SOLVED_CORRECTLY \/
      s = PRESENTING_TRY_AGAIN \/ s = ATTEMPTS_EXHAUSTED \/
      s = DISPLAYING_CORRECT_ANSWER) /\
  (forall s : BAAChallengeState.t, In s all) /\
  NoDup all /\
  List.length all = 5%nat /\
  map (fun s => (name s, value s)) all = entries /\
  NoDup (map fst entries) /\
  NoDup (map snd entries) /\
  (forall answer type,
      BAAGameChallenge.challengeState (BAAGameChallenge.create answer type)
      = PRESENTING_CHALLENGE) /\
  (forall answer type submitted declared,
      ToElementChallenge.checkAnswer true
        (BAAGameChallenge.create answer type) submitted declared
      = Normal (ToElementChallenge.evaluated
                  (BAAGameChallenge.create answer type) submitted declared)).
Proof.
  split; [intros []; tauto |].
  split; [intros []; cbn; tauto |].
  split.
  { repeat constructor; cbn; intuition discriminate. }
  split; [reflexivity |].
  split; [reflexivity |].
  split.
  { repeat constructor; cbn; intuition discriminate. }
  split.
  { repeat constructor; cbn; intuition discriminate. }
  split; [reflexivity |].
  intros. apply checkAnswer_passes. right. reflexivity.
Qed.

End ChallengeStates.

(** ** Symbol entry: CountsToSymbolChallengeView *)

Section SymbolEntry.
Import BAAGameChallenge.

(** C4: checkAnswer of a symbol-entry view with protonCount p, massNumber m
    and charge c submits the NumberAtom with protonCount = p,
    neutronCount = m - p and electronCount = p - c, and the answer is judged
    correct exactly when these three counts equal the answer atom's. *)
Theorem symbol_checkAnswer_converts_then_compares :
  forall p m c challenge,
    let view :=
      {| CountsToSymbolChallengeView.interactiveSymbolNode :=
           {| InteractiveSymbolNode.protonCount := p;
              InteractiveSymbolNode.massNumber := m;
              InteractiveSymbolNode.charge := c |};
         CountsToSymbolChallengeView.challenge := challenge |} in
    CountsToSymbolChallengeView.userSubmittedAtom view
    = NumberAtom.new p (m - p) (p - c) /\
    CountsToSymbolChallengeView.checkAnswer view
    = BAAGameChallenge.checkAnswer challenge (NumberAtom.new p (m - p) (p - c)) /\
    submittedAtom (CountsToSymbolChallengeView.checkAnswer view)
    = NumberAtom.new p (m - p) (p - c) /\
    (isCorrect (CountsToSymbolChallengeView.checkAnswer view) = true <->
     p = NumberAtom.protonCount (answerAtom challenge) /\
     m - p = NumberAtom.neutronCount (answerAtom challenge) /\
     p - c = NumberAtom.electronCount (answerAtom challenge)).
Proof.
  intros p m c challenge view.
  split; [reflexivity |]. split; [reflexivity |]. split; [reflexivity |].
  unfold CountsToSymbolChallengeView.checkAnswer, BAAGameChallenge.checkAnswer.
  cbn [isCorrect]. rewrite NumberAtom_equals_iff.
  subst view. cbn. intuition congruence.
Qed.

End SymbolEntry.

(** ** Round trip: the correct answer, entered, is judged correct *)

Section RoundTrip.
Import BAAGameChallenge ToElementChallenge.

Lemma displayed_symbol_is_answer (view : CountsToSymbolChallengeView.t) :
  CountsToSymbolChallengeView.userSubmittedAtom
    (CountsToSymbolChallengeView.displayCorrectAnswer view)
  = answerAtom (CountsToSymbolChallengeView.challenge view).
Proof.
  unfold CountsToSymbolChallengeView.userSubmittedAtom,
    CountsToSymbolChallengeView.displayCorrectAnswer.
  cbn. unfold NumberAtom.massNumber, NumberAtom.charge.
  destruct (answerAtom (CountsToSymbolChallengeView.challenge view))
    as [p n e].
  cbn. f_equal; lia.
Qed.

Lemma displayed_element_is_answer (view : ToElementProblemView.t) :
  ToElementProblemView.periodicTableAtom
    (ToElementProblemView.displayCorrectAnswer view)
  = answerAtom (ToElementProblemView.problem view) /\
  ToElementProblemView.neutralOrIon
    (ToElementProblemView.displayCorrectAnswer view)
  = chargeClassification
      (NumberAtom.charge (answerAtom (ToElementProblemView.problem view))).
Proof.
  unfold ToElementProblemView.displayCorrectAnswer. cbn.
  destruct (answerAtom (ToElementProblemView.problem view)); auto.
Qed.

(** C5: for each input shape, submitting the challenge's own answer atom
    converted to that shape is judged correct: the answer's proton count,
    mass number and charge entered in a symbol; the answer atom with
    'neutral' for charge 0 and 'ion' otherwise for a to-element challenge
    (through the view and directly); the answer atom itself for a counts
    challenge. *)
Theorem round_trip_is_correct :
  (forall view,
      CountsToSymbolChallengeView.userSubmittedAtom
        (CountsToSymbolChallengeView.displayCorrectAnswer view)
      = answerAtom (CountsToSymbolChallengeView.challenge view) /\
      isCorrect (CountsToSymbolChallengeView.checkAnswer
                   (CountsToSymbolChallengeView.displayCorrectAnswer view))
      = true) /\
  (forall assertEnabled view,
      assertionPasses assertEnabled (ToElementProblemView.problem view) ->
      exists ev,
        ToElementProblemView.checkAnswer assertEnabled
          (ToElementProblemView.displayCorrectAnswer view) = Normal ev /\
        isCorrect ev = true) /\
  (forall assertEnabled this,
      assertionPasses assertEnabled this ->
      exists ev,
        ToElementChallenge.checkAnswer assertEnabled this (answerAtom this)
          (chargeClassification (NumberAtom.charge (answerAtom this)))
        = Normal ev /\
        isCorrect ev = true) /\
  (forall this,
      isCorrect (BAAGameChallenge.checkAnswer this (answerAtom this)) = true).
Proof.
  split; [| split; [| split]].
  - intros view. split; [apply displayed_symbol_is_answer |].
    unfold CountsToSymbolChallengeView.checkAnswer.
    rewrite displayed_symbol_is_answer.
    cbn [isCorrect BAAGameChallenge.checkAnswer
         CountsToSymbolChallengeView.challenge
         CountsToSymbolChallengeView.displayCorrectAnswer].
    apply NumberAtom_equals_refl.
  - intros assertEnabled view Hpass.
    unfold ToElementProblemView.checkAnswer.
    destruct (displayed_element_is_answer view) as [-> ->].
    eexists. split; [apply checkAnswer_passes; exact Hpass |].
    cbn [isCorrect evaluated ToElementProblemView.problem
         ToElementProblemView.displayCorrectAnswer].
    apply isCorrectFor_classified. auto.
  - intros assertEnabled this Hpass.
    eexists. split; [apply checkAnswer_passes; exact Hpass |].
    cbn [isCorrect evaluated]. apply isCorrectFor_classified. auto.
  - intros this. apply NumberAtom_equals_refl.
Qed.

(** The round trip of the lithium challenge. *)
Lemma round_trip_is_correct_witness :
  assertionPasses true Fixtures.lithiumChallenge /\
  exists ev,
    ToElementChallenge.checkAnswer true Fixtures.lithiumChallenge
      (answerAtom Fixtures.lithiumChallenge)
      (chargeClassification
         (NumberAtom.charge (answerAtom Fixtures.lithiumChallenge)))
    = Normal ev /\
    isCorrect ev = true.
Proof.
  split; [right; reflexivity |].
  apply (proj1 (proj2 (proj2 round_trip_is_correct))).
  right; reflexivity.
Defined.

End RoundTrip.

(** ** Level completion: BAAGameScreenView *)

Section LevelCompletion.
Import BAAGameScreenView.

Lemma cons_neq_self {A : Type} (x : A) (l : list A) : l <> x :: l.
Proof.
  intros H. apply (f_equal (@List.length A)) in H. cbn in H. lia.
Qed.

Lemma reward_not_in_dialog (nodes : list SceneNode) node :
  In RewardNode (List.app nodes [LevelCompleted node]) <-> In RewardNode nodes.
Proof.
  rewrite in_app_iff. cbn. intuition discriminate.
Qed.

(** What the level-completed branch does to the fields that the outcomes
    read, whatever the feedback setting. *)
Lemma levelCompleted_fields C P reward gameModel self :
  let after := levelCompleted C P reward gameModel self in
  let perfect := (score gameModel =? MAX_POINTS_PER_GAME_LEVEL C P) || reward in
  (In RewardNode (rootNode after) <-> perfect = true) /\
  rewardNode after = (if perfect then Some RewardNode else rewardNode self) /\
  played after
  = (if perfect then gameOverPerfectScore :: played self
     else if 0 <? score gameModel
          then gameOverImperfectScore :: played self
          else played self).
Proof.
  unfold levelCompleted.
  destruct ((score gameModel =? MAX_POINTS_PER_GAME_LEVEL C P) || reward);
    destruct (0 <? score gameModel); destruct (provideFeedback gameModel);
    cbn [rootNode rewardNode played];
    rewrite ?reward_not_in_dialog; cbn; intuition congruence.
Qed.

(** C6, as stated, fails: with the reward query parameter set, a level that
    ends with no points at all (five challenges, two points each, so a
    maximum of ten) still gets the perfect-score outcome. *)
Lemma reward_parameter_forces_perfect_outcome :
  score Fixtures.scoreless = 0 /\
  MAX_POINTS_PER_GAME_LEVEL 5 2 = 10 /\
  perfectOutcome Fixtures.emptyView
    (stateListener 5 2 true Fixtures.scoreless LEVEL_COMPLETED
       Fixtures.emptyView).
Proof.
  split; [reflexivity |]. split; [reflexivity |].
  unfold perfectOutcome. cbn. auto.
Qed.

(** C6, amended: on level completion the perfect-score outcome (reward node
    and perfect-score sound) is produced iff the score equals
    MAX_POINTS_PER_GAME_LEVEL = CHALLENGES_PER_LEVEL x POINTS_FOR_FIRST_ATTEMPT
    or the reward query parameter is set; without that parameter, iff the
    score equals the maximum.  Every other completed level gets the normal
    outcome. *)
Theorem perfect_outcome_iff_max_score_or_reward :
  forall C P reward gameModel self,
    let after := stateListener C P reward gameModel LEVEL_COMPLETED self in
    (perfectOutcome self after <->
     score gameModel = C * P \/ reward = true) /\
    (reward = false ->
     (perfectOutcome self after <->
      score gameModel = MAX_POINTS_PER_GAME_LEVEL C P)) /\
    (~ (score gameModel = C * P \/ reward = true) ->
     normalOutcome gameModel self after).
Proof.
  intros C P reward gameModel self after.
  destruct (levelCompleted_fields C P reward gameModel self)
    as (Hroot & Hreward & Hplayed).
  fold (stateListener C P reward gameModel LEVEL_COMPLETED self) in *.
  fold after in Hroot, Hreward, Hplayed.
  assert (Hperfect :
            (score gameModel =? MAX_POINTS_PER_GAME_LEVEL C P) || reward = true
            <-> score gameModel = C * P \/ reward = true).
  { rewrite orb_true_iff, Z.eqb_eq. reflexivity. }
  assert (Hiff : perfectOutcome self after <->
                 score gameModel = C * P \/ reward = true).
  { rewrite <- Hperfect. unfold perfectOutcome.
    rewrite Hroot, Hreward, Hplayed.
    destruct ((score gameModel =? MAX_POINTS_PER_GAME_LEVEL C P) || reward).
    - tauto.
    - split; [| discriminate].
      intros (_ & Habs & _). discriminate Habs. }
  split; [exact Hiff |]. split.
  - intros ->. rewrite Hiff. unfold MAX_POINTS_PER_GAME_LEVEL.
    intuition discriminate.
  - intros Hnot. rewrite <- Hperfect in Hnot.
    apply not_true_is_false in Hnot.
    unfold normalOutcome. rewrite Hroot, Hreward, Hplayed, Hnot.
    repeat split. discriminate.
Qed.

(** Ten points out of ten, no reward parameter. *)
Lemma perfect_outcome_iff_max_score_or_reward_witness :
  perfectOutcome Fixtures.emptyView
    (stateListener 5 2 false
       {| score := 10; level := 0; provideFeedback := true |}
       LEVEL_COMPLETED Fixtures.emptyView).
Proof.
  apply (proj2 (proj1 (proj2 (perfect_outcome_iff_max_score_or_reward
                                5 2 false
                                {| score := 10; level := 0;
                                   provideFeedback := true |}
                                Fixtures.emptyView))
                        eq_refl)).
  reflexivity.
Defined.

End LevelCompletion.

(** ** Nucleus stability: BuildAnAtomModel.nucleusStableProperty *)

Section NucleusStability.
Import BuildAnAtomModel.

(** C10: the derived stability value is AtomIdentifier.isStable of the two
    counts whenever protonCount + neutronCount > 0, and true when the nucleus
    is empty. *)
Theorem nucleus_stable_unless_isStable_says_otherwise :
  forall isStable this,
    (0 < ParticleAtom.protonCount (particleAtom this)
         + ParticleAtom.neutronCount (particleAtom this) ->
     nucleusStableProperty isStable this
     = isStable (ParticleAtom.protonCount (particleAtom this))
                (ParticleAtom.neutronCount (particleAtom this))) /\
    (ParticleAtom.protonCount (particleAtom this)
     + ParticleAtom.neutronCount (particleAtom this) = 0 ->
     nucleusStableProperty isStable this = true) /\
    (forall protonCount neutronCount,
        (0 < protonCount + neutronCount ->
         nucleusStable isStable protonCount neutronCount
         = isStable protonCount neutronCount) /\
        (protonCount + neutronCount = 0 ->
         nucleusStable isStable protonCount neutronCount = true)).
Proof.
  intros isStable this.
  assert (Hderive : forall p n,
             (0 < p + n -> nucleusStable isStable p n = isStable p n) /\
             (p + n = 0 -> nucleusStable isStable p n = true)).
  { intros p n. unfold nucleusStable.
    destruct (Z.ltb_spec 0 (p + n)); split; intros; auto; lia. }
  unfold nucleusStableProperty.
  split; [apply Hderive |]. split; [apply Hderive | exact Hderive].
Qed.

(** With a table that calls nothing stable: the empty atom of a new model
    is stable all the same, a carbon-12 nucleus is not. *)
Lemma nucleus_stable_unless_isStable_says_otherwise_witness :
  nucleusStableProperty Fixtures.nothingStable create = true /\
  nucleusStableProperty Fixtures.nothingStable Fixtures.carbonNucleus = false.
Proof.
  split.
  - apply (proj1 (proj2 (nucleus_stable_unless_isStable_says_otherwise
                           Fixtures.nothingStable create))).
    reflexivity.
  - apply (proj1 (nucleus_stable_unless_isStable_says_otherwise
                    Fixtures.nothingStable Fixtures.carbonNucleus)).
    reflexivity.
Defined.

End NucleusStability.

(** ** Moving particles between buckets and atom *)

Section ParticleLists.
Import Particle.

Lemma same_eq (p q : Particle.t) : Particle.same p q = true <-> p = q.
Proof.
  destruct p as [tp ip], q as [tq iq]. unfold Particle.same. cbn.
  rewrite andb_true_iff, Nat.eqb_eq. split.
  - intros [Ht ->]. destruct tp, tq; try discriminate Ht; reflexivity.
  - intros [= -> ->]. split; [destruct tq |]; reflexivity.
Qed.

Lemma same_refl (p : Particle.t) : Particle.same p p = true.
Proof. now apply same_eq. Qed.

Lemma contains_In (p : Particle.t) (l : list Particle.t) :
  ObservableArray.contains p l = true <-> In p l.
Proof.
  unfold ObservableArray.contains. rewrite existsb_exists. split.
  - intros (q & Hin & Hsame). apply same_eq in Hsame. now subst.
  - intros Hin. exists p. split; [exact Hin | apply same_refl].
Qed.

Lemma contains_false (p : Particle.t) (l : list Particle.t) :
  ~ In p l -> ObservableArray.contains p l = false.
Proof.
  intros Hnot. apply not_true_is_false. now rewrite contains_In.
Qed.

Lemma contains_other_type k (p : Particle.t) (l : list Particle.t) :
  Forall (fun q => Particle.type q = k) l ->
  Particle.type p <> k ->
  ObservableArray.contains p l = false.
Proof.
  intros Htyped Hother. apply contains_false. intros Hin.
  rewrite Forall_forall in Htyped. apply Hother. now apply Htyped.
Qed.

Lemma remove_head (p : Particle.t) (l : list Particle.t) :
  ObservableArray.remove p (p :: l) = l.
Proof. cbn. now rewrite same_refl. Qed.

(** Removing a particle that is present takes out its first occurrence. *)
Lemma remove_splits (p : Particle.t) (l : list Particle.t) :
  In p l ->
  exists front back,
    l = List.app front (p :: back) /\
    ObservableArray.remove p l = List.app front back.
Proof.
  induction l as [| q rest IH]; intros Hin; [destruct Hin |].
  cbn [ObservableArray.remove].
  destruct (Particle.same p q) eqn:Hsame.
  - apply same_eq in Hsame. subst q. now exists [], rest.
  - destruct Hin as [-> | Hin]; [now rewrite same_refl in Hsame |].
    destruct (IH Hin) as (front & back & -> & ->).
    now exists (q :: front), back.
Qed.

Section Closest.
Variable closer : Particle.t -> Particle.t -> bool.

Lemma closest_scan (l : list Particle.t) :
  forall start,
    match
      fold_left
        (fun closest particle =>
           match closest with
           | None => Some particle
           | Some c => if closer particle c then Some particle else Some c
           end) l start
    with
    | Some p => In p l \/ start = Some p
    | None => start = None /\ l = []
    end.
Proof.
  induction l as [| q rest IH]; intros start; cbn [fold_left].
  - destruct start; auto.
  - specialize (IH (match start with
                    | None => Some q
                    | Some c => if closer q c then Some q else Some c
                    end)).
    destruct (fold_left _ rest _) as [p |].
    + destruct IH as [Hin | Hstart]; [left; now right |].
      destruct start as [c |].
      * destruct (closer q c); injection Hstart as <-; [left; now left | now right].
      * injection Hstart as <-. left; now left.
    + destruct IH as [Habs _].
      destruct start as [c |]; [destruct (closer q c) |]; discriminate Habs.
Qed.

(** Extraction from a bucket that is not empty takes out one of its
    particles. *)
Lemma extractClosestParticle_some (bucket : SphereBucket.t) :
  bucket <> [] ->
  exists p front back,
    bucket = List.app front (p :: back) /\
    SphereBucket.extractClosestParticle closer bucket
    = (Some p, List.app front back).
Proof.
  intros Hne. unfold SphereBucket.extractClosestParticle,
                SphereBucket.closestParticle.
  pose proof (closest_scan bucket None) as Hscan.
  destruct (fold_left _ bucket None) as [p |].
  - destruct Hscan as [Hin | Habs]; [| discriminate Habs].
    destruct (remove_splits p bucket Hin) as (front & back & Hsplit & ->).
    now exists p, front, back.
  - destruct Hscan as [_ Hnil]. contradiction.
Qed.

End Closest.

End ParticleLists.

Section MovingParticles.
Import Particle BuildAnAtomModel.

Lemma type_eq_dec (a b : ParticleType) : {a = b} + {a <> b}.
Proof. decide equality. Qed.

(** Reading a field after one of the two updates. *)
Lemma bucketOf_setBucket k bucket this :
  bucketOf k (setBucket k bucket this) = bucket.
Proof. now destruct k. Qed.

Lemma bucketOf_setBucket_other k k' bucket this :
  k' <> k -> bucketOf k' (setBucket k bucket this) = bucketOf k' this.
Proof. destruct k, k'; intros H; try reflexivity; now contradiction H. Qed.

Lemma particlesInAtom_setBucket k k' bucket this :
  particlesInAtom k' (setBucket k bucket this) = particlesInAtom k' this.
Proof. now destruct k'. Qed.

Lemma bucketOf_setParticleAtom k atom this :
  bucketOf k (setParticleAtom atom this) = bucketOf k this.
Proof. now destruct k. Qed.

Lemma particlesInAtom_added p this :
  particlesInAtom (Particle.type p)
    (setParticleAtom (ParticleAtom.addParticle p (particleAtom this)) this)
  = List.app (particlesInAtom (Particle.type p) this) [p].
Proof.
  unfold ParticleAtom.addParticle. now destruct (Particle.type p).
Qed.

Lemma particlesInAtom_added_other p k' this :
  k' <> Particle.type p ->
  particlesInAtom k'
    (setParticleAtom (ParticleAtom.addParticle p (particleAtom this)) this)
  = particlesInAtom k' this.
Proof.
  unfold ParticleAtom.addParticle.
  destruct (Particle.type p), k'; intros H; try reflexivity;
    now contradiction H.
Qed.

(** A particle of the atom's collection [k] is found there, and not in a
    collection that is searched before it. *)
Lemma removeParticle_head k p rest this :
  (forall k', Forall (fun q => Particle.type q = k')
                     (particlesInAtom k' this)) ->
  particlesInAtom k this = p :: rest ->
  exists atom,
    ParticleAtom.removeParticle p (particleAtom this) = Normal atom /\
    particlesInAtom k (setParticleAtom atom this) = rest /\
    (forall k', k' <> k ->
                particlesInAtom k' (setParticleAtom atom this)
                = particlesInAtom k' this).
Proof.
  intros Htyped Hhead.
  assert (Hp : Particle.type p = k).
  { specialize (Htyped k). rewrite Hhead in Htyped. now inversion Htyped. }
  assert (Hin : ObservableArray.contains p (particlesInAtom k this) = true).
  { rewrite Hhead. apply contains_In. now left. }
  assert (Hout : forall k', k' <> k ->
             ObservableArray.contains p (particlesInAtom k' this) = false).
  { intros k' Hk'. apply (contains_other_type k'); [apply Htyped | congruence]. }
  assert (Hprotons : k <> proton ->
             ObservableArray.contains p (ParticleAtom.protons (particleAtom this))
             = false).
  { intros Hk. apply (Hout proton). congruence. }
  assert (Hneutrons : k <> neutron ->
             ObservableArray.contains p
               (ParticleAtom.neutrons (particleAtom this)) = false).
  { intros Hk. apply (Hout neutron). congruence. }
  unfold ParticleAtom.removeParticle.
  destruct k; cbn [particlesInAtom] in Hin, Hhead.
  - rewrite Hin. eexists. split; [reflexivity |]. split.
    + cbn. rewrite Hhead. apply remove_head.
    + intros []; intros H; try reflexivity; now contradiction H.
  - rewrite Hprotons by discriminate. rewrite Hin.
    eexists. split; [reflexivity |]. split.
    + cbn. rewrite Hhead. apply remove_head.
    + intros []; intros H; try reflexivity; now contradiction H.
  - rewrite Hprotons, Hneutrons by discriminate. rewrite Hin.
    eexists. split; [reflexivity |]. split.
    + cbn. rewrite Hhead. apply remove_head.
    + intros []; intros H; try reflexivity; now contradiction H.
Qed.

(** The state reached by moving the particles [l] of collection [k] to the
    bucket, one after the other. *)
Lemma move_each_to_bucket k (l : list Particle.t) :
  forall this,
    (forall k', Forall (fun q => Particle.type q = k')
                       (particlesInAtom k' this)) ->
    particlesInAtom k this = l ->
    exists after,
      fold_left
        (fun (state : Completion BuildAnAtomModel.t) particle =>
           self <- state ;;
           atom <- ParticleAtom.removeParticle particle (particleAtom self) ;;
           Normal
             (setBucket k
                (SphereBucket.addParticleFirstOpen particle (bucketOf k self))
                (setParticleAtom atom self)))
        l (Normal this)
      = Normal after /\
      particlesInAtom k after = [] /\
      bucketOf k after = List.app (bucketOf k this) l /\
      (forall k', k' <> k ->
                  particlesInAtom k' after = particlesInAtom k' this /\
                  bucketOf k' after = bucketOf k' this).
Proof.
  induction l as [| p rest IH]; intros this Htyped Hl; cbn [fold_left].
  - exists this. rewrite app_nil_r. auto.
  - destruct (removeParticle_head k p rest this Htyped Hl)
      as (atom & Hremove & Hrest & Hothers).
    cbn [bind]. rewrite Hremove. cbn [bind].
    set (next := setBucket k _ (setParticleAtom atom this)).
    assert (Hnext_atom : forall k', particlesInAtom k' next
                                    = particlesInAtom k' (setParticleAtom atom this)).
    { intros k'. apply particlesInAtom_setBucket. }
    destruct (IH next) as (after & Hfold & Hempty & Hbucket & Hframe).
    + intros k'. rewrite Hnext_atom.
      destruct (type_eq_dec k' k) as [-> | Hk'].
      * rewrite Hrest. specialize (Htyped k). rewrite Hl in Htyped.
        now inversion Htyped.
      * rewrite Hothers by exact Hk'. apply Htyped.
    + now rewrite Hnext_atom.
    + exists after. split; [exact Hfold |]. split; [exact Hempty |]. split.
      * rewrite Hbucket. unfold next. rewrite bucketOf_setBucket.
        unfold SphereBucket.addParticleFirstOpen.
        rewrite <- app_assoc. reflexivity.
      * intros k' Hk'. destruct (Hframe k' Hk') as [-> ->].
        unfold next. rewrite particlesInAtom_setBucket.
        rewrite bucketOf_setBucket_other by exact Hk'.
        rewrite bucketOf_setParticleAtom. split; [now apply Hothers | reflexivity].
Qed.

Lemma wellFormed_atom_typed this :
  wellFormed this ->
  forall k, Forall (fun q => Particle.type q = k) (particlesInAtom k this).
Proof.
  intros Hwf k. destruct (Hwf k) as [Htyped _].
  unfold inventory in Htyped. apply Forall_app in Htyped. tauto.
Qed.

(** A state whose inventories are rearrangements of those of a well-formed
    state is well formed. *)
Lemma wellFormed_rearranged this after :
  wellFormed this ->
  (forall k, Permutation (inventory k this) (inventory k after)) ->
  wellFormed after.
Proof.
  intros Hwf Hperm k. destruct (Hwf k) as [Htyped Hnodup]. split.
  - eapply Permutation_Forall; [apply Hperm | exact Htyped].
  - eapply Permutation_NoDup; [apply Hperm | exact Hnodup].
Qed.

(** _moveParticlesFromAtomToBucket moves every particle of the collection,
    not one. *)
Lemma moveParticlesFromAtomToBucket_all k this :
  wellFormed this ->
  exists after,
    _moveParticlesFromAtomToBucket k this = Normal after /\
    particlesInAtom k after = [] /\
    bucketOf k after = List.app (bucketOf k this) (particlesInAtom k this) /\
    (forall k', k' <> k ->
                particlesInAtom k' after = particlesInAtom k' this /\
                bucketOf k' after = bucketOf k' this) /\
    wellFormed after.
Proof.
  intros Hwf. unfold _moveParticlesFromAtomToBucket.
  destruct (move_each_to_bucket k (particlesInAtom k this) this
              (wellFormed_atom_typed this Hwf) eq_refl)
    as (after & Hfold & Hempty & Hbucket & Hframe).
  exists after.
  split; [exact Hfold |]. split; [exact Hempty |]. split; [exact Hbucket |].
  split; [exact Hframe |].
  apply (wellFormed_rearranged this); [exact Hwf |].
  intros k'. unfold inventory.
  destruct (type_eq_dec k' k) as [-> | Hk'].
  - rewrite Hempty, Hbucket. cbn [List.app]. apply Permutation_app_comm.
  - destruct (Hframe k' Hk') as [-> ->]. reflexivity.
Qed.

End MovingParticles.

(** ** The two loops of moveParticlesToAtom *)

Section Loops.
Import Particle BuildAnAtomModel.

Variable closer : Particle.t -> Particle.t -> bool.

(** One round of the first loop: a particle leaves the bucket and joins the
    atom. *)
Lemma extracted_particle_joins_atom k this p front back :
  wellFormed this ->
  bucketOf k this = List.app front (p :: back) ->
  let next := released true p (setBucket k (List.app front back) this) in
  particlesInAtom k next = List.app (particlesInAtom k this) [p] /\
  bucketOf k next = List.app front back /\
  (forall k', k' <> k ->
              particlesInAtom k' next = particlesInAtom k' this /\
              bucketOf k' next = bucketOf k' this) /\
  wellFormed next.
Proof.
  intros Hwf Hbucket next.
  destruct (Hwf k) as [Htyped Hnodup].
  unfold inventory in Htyped, Hnodup. rewrite Hbucket in Htyped, Hnodup.
  assert (Hp : Particle.type p = k).
  { rewrite Forall_forall in Htyped. apply Htyped.
    apply in_or_app. right. apply in_or_app. right. now left. }
  assert (Habsent : ~ In p (List.app front back)).
  { apply NoDup_app_remove_l in Hnodup. now apply NoDup_remove_2 in Hnodup. }
  assert (Hnext : next
                  = setParticleAtom
                      (ParticleAtom.addParticle p
                         (particleAtom (setBucket k (List.app front back) this)))
                      (setBucket k (List.app front back) this)).
  { unfold next, released, placeNucleon. rewrite Hp.
    unfold SphereBucket.containsParticle.
    rewrite bucketOf_setBucket, (contains_false _ _ Habsent). reflexivity. }
  assert (Hatom : particlesInAtom k next = List.app (particlesInAtom k this) [p]).
  { rewrite Hnext. rewrite <- Hp at 1.
    rewrite (particlesInAtom_added p (setBucket k (List.app front back) this)).
    rewrite Hp. now rewrite particlesInAtom_setBucket. }
  assert (Hb : bucketOf k next = List.app front back).
  { rewrite Hnext, bucketOf_setParticleAtom. apply bucketOf_setBucket. }
  assert (Hframe : forall k', k' <> k ->
             particlesInAtom k' next = particlesInAtom k' this /\
             bucketOf k' next = bucketOf k' this).
  { intros k' Hk'. rewrite Hnext. split.
    - rewrite (particlesInAtom_added_other p k') by congruence.
      apply particlesInAtom_setBucket.
    - rewrite bucketOf_setParticleAtom. now apply bucketOf_setBucket_other. }
  split; [exact Hatom |]. split; [exact Hb |]. split; [exact Hframe |].
  apply (wellFormed_rearranged this); [exact Hwf |].
  intros k'. unfold inventory.
  destruct (type_eq_dec k' k) as [-> | Hk'].
  - rewrite Hatom, Hb, Hbucket, <- app_assoc.
    apply Permutation_app_head. cbn [List.app].
    symmetry. apply Permutation_middle.
  - destruct (Hframe k' Hk') as [-> ->]. reflexivity.
Qed.

(** The first loop, run for [n] rounds with [n] particles at hand: it ends
    by its own test, with [n] more particles in the atom. *)
Lemma moveFromBucket_rounds k (n : nat) :
  forall current this,
    wellFormed this ->
    (n <= List.length (bucketOf k this))%nat ->
    exists after,
      moveFromBucket closer n current (current + Z.of_nat n) k this
      = Normal (current + Z.of_nat n, after) /\
      List.length (particlesInAtom k after)
      = (List.length (particlesInAtom k this) + n)%nat /\
      Permutation (inventory k this) (inventory k after) /\
      (forall k', k' <> k ->
                  particlesInAtom k' after = particlesInAtom k' this /\
                  bucketOf k' after = bucketOf k' this) /\
      wellFormed after.
Proof.
  induction n as [| n IH]; intros current this Hwf Henough.
  - exists this. cbn [moveFromBucket Z.of_nat].
    rewrite Z.add_0_r, Z.ltb_irrefl, Nat.add_0_r.
    repeat (split; [reflexivity |]). split; [auto | exact Hwf].
  - cbn [moveFromBucket].
    replace (current <? current + Z.of_nat (S n)) with true
      by (symmetry; apply Z.ltb_lt; lia).
    destruct (extractClosestParticle_some closer (bucketOf k this))
      as (p & front & back & Hsplit & ->).
    { intros Hnil. rewrite Hnil in Henough. cbn in Henough. lia. }
    destruct (extracted_particle_joins_atom k this p front back Hwf Hsplit)
      as (Hatom & Hb & Hframe & Hwf').
    set (next := released true p (setBucket k (List.app front back) this)) in *.
    destruct (IH (current + 1) next Hwf') as (after & Hrun & Hlen & Hperm & Hfr & Hwfa).
    { rewrite Hb. rewrite Hsplit in Henough.
      rewrite length_app in *. cbn [List.length] in Henough. lia. }
    exists after.
    replace (current + Z.of_nat (S n)) with (current + 1 + Z.of_nat n) by lia.
    split; [exact Hrun |]. split.
    { rewrite Hlen, Hatom, length_app. cbn [List.length]. lia. }
    split.
    { etransitivity; [| exact Hperm]. unfold inventory.
      rewrite Hatom, Hb, Hsplit, <- app_assoc.
      apply Permutation_app_head. cbn [List.app].
      symmetry. apply Permutation_middle. }
    split; [| exact Hwfa].
    intros k' Hk'. destruct (Hfr k' Hk') as [-> ->]. now apply Hframe.
Qed.

(** The first loop does nothing when the atom already holds enough. *)
Lemma moveFromBucket_skipped fuel current target k this :
  target <= current ->
  moveFromBucket closer fuel current target k this = Normal (current, this).
Proof.
  intros Hle. destruct fuel; cbn [moveFromBucket];
    now replace (current <? target) with false
      by (symmetry; apply Z.ltb_ge; lia).
Qed.

(** Once the collection is empty, further rounds of the second loop change
    nothing. *)
Lemma moveToBucket_empty k (n : nat) :
  forall current this,
    particlesInAtom k this = [] ->
    moveToBucket n current (current - Z.of_nat n) k this
    = Normal (current - Z.of_nat n, this).
Proof.
  induction n as [| n IH]; intros current this Hempty; cbn [moveToBucket].
  - cbn [Z.of_nat]. now rewrite Z.sub_0_r, Z.ltb_irrefl.
  - replace (current - Z.of_nat (S n) <? current) with true
      by (symmetry; apply Z.ltb_lt; lia).
    unfold _moveParticlesFromAtomToBucket. rewrite Hempty.
    cbn [fold_left bind].
    replace (current - Z.of_nat (S n)) with (current - 1 - Z.of_nat n) by lia.
    now apply IH.
Qed.

(** The second loop, run for at least one round: its first round empties the
    collection, whatever the target. *)
Lemma moveToBucket_rounds k (n : nat) current this :
  wellFormed this ->
  exists after,
    moveToBucket (S n) current (current - Z.of_nat (S n)) k this
    = Normal (current - Z.of_nat (S n), after) /\
    particlesInAtom k after = [] /\
    bucketOf k after = List.app (bucketOf k this) (particlesInAtom k this) /\
    (forall k', k' <> k ->
                particlesInAtom k' after = particlesInAtom k' this /\
                bucketOf k' after = bucketOf k' this) /\
    wellFormed after.
Proof.
  intros Hwf.
  destruct (moveParticlesFromAtomToBucket_all k this Hwf)
    as (after & Hmove & Hempty & Hbucket & Hframe & Hwfa).
  exists after. cbn [moveToBucket].
  replace (current - Z.of_nat (S n) <? current) with true
    by (symmetry; apply Z.ltb_lt; lia).
  rewrite Hmove. cbn [bind].
  replace (current - Z.of_nat (S n)) with (current - 1 - Z.of_nat n) by lia.
  rewrite (moveToBucket_empty k n (current - 1) after Hempty). auto.
Qed.

End Loops.

(** ** moveParticlesToAtom and setAtomConfiguration *)

Section Configuration.
Import Particle BuildAnAtomModel.

Variable closer : Particle.t -> Particle.t -> bool.

(** What moveParticlesToAtom makes of one particle type: the target when
    the count had to grow (and the bucket could supply the difference), an
    empty collection when it had to shrink. *)
Lemma moveParticlesToAtom_count k target this :
  wellFormed this ->
  target - countInAtom k this <= Z.of_nat (List.length (bucketOf k this)) ->
  exists after,
    moveParticlesToAtom closer (countInAtom k this) target k this
    = Normal after /\
    countInAtom k after
    = (if target <? countInAtom k this then 0 else target) /\
    Permutation (inventory k this) (inventory k after) /\
    (forall k', k' <> k ->
                particlesInAtom k' after = particlesInAtom k' this /\
                bucketOf k' after = bucketOf k' this) /\
    wellFormed after.
Proof.
  intros Hwf Henough. unfold moveParticlesToAtom.
  destruct (Z.ltb_spec target (countInAtom k this)) as [Hless | Hmore].
  - rewrite moveFromBucket_skipped by lia. cbn [bind fst snd].
    destruct (Z.to_nat (countInAtom k this - target)) as [| n] eqn:Hfuel;
      [lia |].
    assert (Htarget : target = countInAtom k this - Z.of_nat (S n)) by lia.
    destruct (moveToBucket_rounds k n (countInAtom k this) this Hwf)
      as (after & Hrun & Hempty & Hbucket & Hframe & Hwfa).
    rewrite <- Htarget in Hrun. rewrite Hrun. cbn [bind snd].
    exists after. split; [reflexivity |]. split.
    { unfold countInAtom. now rewrite Hempty. }
    split; [| auto].
    unfold inventory. rewrite Hempty, Hbucket. cbn [List.app].
    apply Permutation_app_comm.
  - set (n := Z.to_nat (target - countInAtom k this)).
    assert (Htarget : target = countInAtom k this + Z.of_nat n) by lia.
    destruct (moveFromBucket_rounds closer k n (countInAtom k this) this Hwf)
      as (after & Hrun & Hlen & Hperm & Hframe & Hwfa); [lia |].
    rewrite <- Htarget in Hrun. rewrite Hrun. cbn [bind fst snd].
    rewrite Z.sub_diag. cbn [Z.to_nat moveToBucket].
    rewrite Z.ltb_irrefl. cbn [bind snd].
    exists after. split; [reflexivity |]. split; [| auto].
    unfold countInAtom in *. rewrite Hlen. lia.
Qed.

(** What setAtomConfiguration makes of the atom.  Provided the buckets can
    supply what has to be added, each particle count ends at its target when
    it had to grow or stay, and at zero when it had to shrink; no particle is
    lost or made. *)
Lemma setAtomConfiguration_counts numberAtom this :
  wellFormed this ->
  (forall k, targetCount k numberAtom - countInAtom k this
             <= Z.of_nat (List.length (bucketOf k this))) ->
  exists after,
    setAtomConfiguration closer numberAtom this = Normal after /\
    (forall k, countInAtom k after
               = if targetCount k numberAtom <? countInAtom k this
                 then 0 else targetCount k numberAtom) /\
    (forall k, Permutation (inventory k this) (inventory k after)) /\
    wellFormed after.
Proof.
  intros Hwf Henough. unfold setAtomConfiguration.
  destruct (moveParticlesToAtom_count proton (targetCount proton numberAtom)
              this Hwf (Henough proton))
    as (s1 & Hrun1 & Hcount1 & Hperm1 & Hframe1 & Hwf1).
  change (Z.of_nat (List.length (ParticleAtom.protons (particleAtom this))))
    with (countInAtom proton this).
  change (NumberAtom.protonCount numberAtom)
    with (targetCount proton numberAtom).
  rewrite Hrun1. cbn [bind].
  destruct (Hframe1 neutron) as [Hn1 Hnb1]; [discriminate |].
  destruct (Hframe1 electron) as [He1 Heb1]; [discriminate |].
  assert (Hcn1 : countInAtom neutron s1 = countInAtom neutron this)
    by (unfold countInAtom; now rewrite Hn1).
  assert (Hce1 : countInAtom electron s1 = countInAtom electron this)
    by (unfold countInAtom; now rewrite He1).
  destruct (moveParticlesToAtom_count neutron (targetCount neutron numberAtom)
              s1 Hwf1)
    as (s2 & Hrun2 & Hcount2 & Hperm2 & Hframe2 & Hwf2).
  { rewrite Hcn1, Hnb1. apply Henough. }
  change (Z.of_nat (List.length (ParticleAtom.neutrons (particleAtom s1))))
    with (countInAtom neutron s1).
  change (NumberAtom.neutronCount numberAtom)
    with (targetCount neutron numberAtom).
  rewrite Hrun2. cbn [bind].
  destruct (Hframe2 proton) as [Hp2 Hpb2]; [discriminate |].
  destruct (Hframe2 electron) as [He2 Heb2]; [discriminate |].
  assert (Hce2 : countInAtom electron s2 = countInAtom electron this)
    by (unfold countInAtom; now rewrite He2, He1).
  destruct (moveParticlesToAtom_count electron
              (targetCount electron numberAtom) s2 Hwf2)
    as (s3 & Hrun3 & Hcount3 & Hperm3 & Hframe3 & Hwf3).
  { rewrite Hce2, Heb2, Heb1. apply Henough. }
  change (Z.of_nat (List.length (ParticleAtom.electrons (particleAtom s2))))
    with (countInAtom electron s2).
  change (NumberAtom.electronCount numberAtom)
    with (targetCount electron numberAtom).
  rewrite Hrun3.
  destruct (Hframe3 proton) as [Hp3 Hpb3]; [discriminate |].
  destruct (Hframe3 neutron) as [Hn3 Hnb3]; [discriminate |].
  exists s3. split; [reflexivity |]. split; [| split; [| exact Hwf3]].
  - intros []; unfold countInAtom in *.
    + rewrite Hp3, Hp2. exact Hcount1.
    + rewrite Hn3, Hcount2, Hn1. reflexivity.
    + rewrite Hcount3, He2, He1. reflexivity.
  - intros []; unfold inventory in *.
    + rewrite Hp3, Hpb3, Hp2, Hpb2. exact Hperm1.
    + rewrite Hn3, Hnb3, <- Hn1, <- Hnb1. exact Hperm2.
    + rewrite <- He1, <- Heb1, <- He2, <- Heb2. exact Hperm3.
Qed.

Lemma particles_typed k n :
  Forall (fun p => Particle.type p = k) (particles k n).
Proof.
  unfold particles. apply Forall_forall. intros p Hin.
  apply in_map_iff in Hin. destruct Hin as (i & <- & _). reflexivity.
Qed.

Lemma particles_NoDup k n : NoDup (particles k n).
Proof.
  unfold particles. apply Finite.Injective_map_NoDup.
  - intros i j [= ->]. reflexivity.
  - apply seq_NoDup.
Qed.

(** The constructor yields a well-formed model. *)
Lemma create_wellFormed : wellFormed create.
Proof.
  intros []; unfold inventory; cbn [particlesInAtom bucketOf create
    particleAtom buckets ParticleAtom.protons ParticleAtom.neutrons
    ParticleAtom.electrons ParticleAtom.empty protonBucket neutronBucket
    electronBucket List.app];
    split; (apply particles_typed || apply particles_NoDup).
Qed.

End Configuration.

(** ** The loops end by their own tests *)

Section Fuel.
Import Particle BuildAnAtomModel.

Variable closer : Particle.t -> Particle.t -> bool.

Lemma moveFromBucket_fuel k (fuel : nat) :
  forall current target this,
    (Z.to_nat (target - current) <= fuel)%nat ->
    moveFromBucket closer fuel current target k this <> OutOfFuel.
Proof.
  induction fuel as [| fuel IH]; intros current target this Hfuel;
    cbn [moveFromBucket]; destruct (Z.ltb_spec current target) as [Hlt | Hge];
    try discriminate.
  - lia.
  - destruct (SphereBucket.extractClosestParticle closer (bucketOf k this))
      as [[p |] bucket]; [| discriminate].
    apply IH. lia.
Qed.

Lemma move_each_keeps_going k (l : list Particle.t) :
  forall state : Completion BuildAnAtomModel.t,
    state <> OutOfFuel ->
    fold_left
      (fun (state : Completion BuildAnAtomModel.t) particle =>
         self <- state ;;
         atom <- ParticleAtom.removeParticle particle (particleAtom self) ;;
         Normal
           (setBucket k
              (SphereBucket.addParticleFirstOpen particle (bucketOf k self))
              (setParticleAtom atom self)))
      l state
    <> OutOfFuel.
Proof.
  induction l as [| p rest IH]; intros state Hstate; cbn [fold_left].
  - exact Hstate.
  - apply IH. destruct state as [self | message |]; cbn [bind];
      [| discriminate | contradiction].
    unfold ParticleAtom.removeParticle.
    repeat match goal with
           | |- context [if ?b then _ else _] => destruct b
           end; discriminate.
Qed.

Lemma moveToBucket_fuel k (fuel : nat) :
  forall current target this,
    (Z.to_nat (current - target) <= fuel)%nat ->
    moveToBucket fuel current target k this <> OutOfFuel.
Proof.
  induction fuel as [| fuel IH]; intros current target this Hfuel;
    cbn [moveToBucket]; destruct (Z.ltb_spec target current) as [Hlt | Hge];
    try discriminate.
  - lia.
  - pose proof (move_each_keeps_going k (particlesInAtom k this) (Normal this))
      as Hmove.
    fold (_moveParticlesFromAtomToBucket k this) in Hmove.
    destruct (_moveParticlesFromAtomToBucket k this) as [self | message |];
      cbn [bind]; [| discriminate | now contradiction Hmove].
    apply IH. lia.
Qed.

Lemma moveParticlesToAtom_fuel current target k this :
  moveParticlesToAtom closer current target k this <> OutOfFuel.
Proof.
  unfold moveParticlesToAtom.
  pose proof (moveFromBucket_fuel k (Z.to_nat (target - current))
                current target this (Nat.le_refl _)) as Hfirst.
  destruct (moveFromBucket closer _ current target k this)
    as [[count self] | message |]; cbn [bind fst snd];
    [| discriminate | contradiction].
  pose proof (moveToBucket_fuel k (Z.to_nat (count - target))
                count target self (Nat.le_refl _)) as Hsecond.
  destruct (moveToBucket _ count target k self)
    as [[count' self'] | message |]; cbn [bind];
    [discriminate | discriminate | contradiction].
Qed.

(** setAtomConfiguration always comes to an end: it returns or throws, in
    every state and for every target. *)
Lemma setAtomConfiguration_ends numberAtom this :
  setAtomConfiguration closer numberAtom this <> OutOfFuel.
Proof.
  unfold setAtomConfiguration.
  pose proof (moveParticlesToAtom_fuel
                (Z.of_nat
                   (List.length (ParticleAtom.protons (particleAtom this))))
                (NumberAtom.protonCount numberAtom) proton this) as H1.
  destruct (moveParticlesToAtom closer _ _ proton this)
    as [self1 | message |]; cbn [bind]; [| discriminate | contradiction].
  pose proof (moveParticlesToAtom_fuel
                (Z.of_nat
                   (List.length (ParticleAtom.neutrons (particleAtom self1))))
                (NumberAtom.neutronCount numberAtom) neutron self1) as H2.
  destruct (moveParticlesToAtom closer _ _ neutron self1)
    as [self2 | message |]; cbn [bind]; [| discriminate | contradiction].
  apply moveParticlesToAtom_fuel.
Qed.

End Fuel.

(** ** setAtomConfiguration against its targets *)

Section Targets.
Import Particle BuildAnAtomModel.

(** When no count has to shrink to a target other than zero,
    setAtomConfiguration reaches the requested configuration. *)
Lemma setAtomConfiguration_reaches_target closer numberAtom this :
  wellFormed this ->
  (forall k, targetCount k numberAtom - countInAtom k this
             <= Z.of_nat (List.length (bucketOf k this))) ->
  (forall k, countInAtom k this <= targetCount k numberAtom
             \/ targetCount k numberAtom = 0) ->
  exists after,
    setAtomConfiguration closer numberAtom this = Normal after /\
    (forall k, countInAtom k after = targetCount k numberAtom).
Proof.
  intros Hwf Henough Hgrow.
  destruct (setAtomConfiguration_counts closer numberAtom this Hwf Henough)
    as (after & Hrun & Hcounts & _).
  exists after. split; [exact Hrun |].
  intros k. rewrite Hcounts.
  destruct (Z.ltb_spec (targetCount k numberAtom) (countInAtom k this));
    destruct (Hgrow k); lia.
Qed.

(** A count that has to shrink to a target above zero ends at zero
    instead. *)
Lemma setAtomConfiguration_overshoots closer numberAtom this k :
  wellFormed this ->
  (forall k', targetCount k' numberAtom - countInAtom k' this
              <= Z.of_nat (List.length (bucketOf k' this))) ->
  0 < targetCount k numberAtom < countInAtom k this ->
  exists after,
    setAtomConfiguration closer numberAtom this = Normal after /\
    countInAtom k after = 0 /\
    countInAtom k after <> targetCount k numberAtom.
Proof.
  intros Hwf Henough Hshrink.
  destruct (setAtomConfiguration_counts closer numberAtom this Hwf Henough)
    as (after & Hrun & Hcounts & _).
  exists after. split; [exact Hrun |].
  rewrite Hcounts.
  destruct (Z.ltb_spec (targetCount k numberAtom) (countInAtom k this)); lia.
Qed.

(** C9 fails on the code: a new model brought to five protons and then
    asked for three protons ends with no proton in the atom, whichever
    particles the buckets hand out. *)
Theorem setAtomConfiguration_five_to_three_protons :
  forall closer,
  exists five after,
    setAtomConfiguration closer (NumberAtom.new 5 0 0) create = Normal five /\
    ParticleAtom.protonCount (particleAtom five) = 5 /\
    setAtomConfiguration closer (NumberAtom.new 3 0 0) five = Normal after /\
    ParticleAtom.protonCount (particleAtom after) = 0 /\
    ParticleAtom.neutronCount (particleAtom after) = 0 /\
    ParticleAtom.electronCount (particleAtom after) = 0 /\
    List.length (protonBucket (buckets after)) = NUM_PROTONS.
Proof.
  intros closer.
  destruct (setAtomConfiguration_counts closer (NumberAtom.new 5 0 0) create
              create_wellFormed)
    as (five & Hrun5 & Hcounts5 & Hperm5 & Hwf5).
  { intros []; cbn; lia. }
  destruct (setAtomConfiguration_counts closer (NumberAtom.new 3 0 0) five Hwf5)
    as (after & Hrun3 & Hcounts3 & Hperm3 & _).
  { intros k. rewrite Hcounts5. destruct k; cbn; lia. }
  exists five, after.
  pose proof (Hcounts5 proton) as Hp5. cbn in Hp5.
  pose proof (Hcounts3 proton) as Hp3. rewrite Hp5 in Hp3. cbn in Hp3.
  pose proof (Hcounts3 neutron) as Hn3. rewrite (Hcounts5 neutron) in Hn3.
  pose proof (Hcounts3 electron) as He3. rewrite (Hcounts5 electron) in He3.
  cbn in Hn3, He3.
  split; [exact Hrun5 |]. split; [exact Hp5 |]. split; [exact Hrun3 |].
  split; [exact Hp3 |]. split; [exact Hn3 |]. split; [exact He3 |].
  pose proof (Permutation_length
                (Permutation_trans (Hperm5 proton) (Hperm3 proton))) as Hlen.
  unfold inventory in Hlen. rewrite !length_app in Hlen.
  unfold countInAtom in Hp3. cbn [particlesInAtom] in Hp3. cbn in Hlen.
  unfold NUM_PROTONS. lia.
Qed.

(** The same run with buckets that hand out their first particle. *)
Example five_to_three_protons_run :
  match
    five <- setAtomConfiguration Fixtures.firstFound (NumberAtom.new 5 0 0)
              create ;;
    setAtomConfiguration Fixtures.firstFound (NumberAtom.new 3 0 0) five
  with
  | Normal after => countInAtom proton after
  | _ => -1
  end = 0.
Proof. vm_compute. reflexivity. Qed.

(** Asking for more protons than the model has runs the bucket empty, and
    the next extraction yields null. *)
Example eleven_protons_throw :
  setAtomConfiguration Fixtures.firstFound (NumberAtom.new 11 0 0) create
  = Throw "TypeError: Cannot read property of null".
Proof. vm_compute. reflexivity. Qed.

(** Growing the atom from the new model works: carbon-12 is reached. *)
Example new_model_to_carbon :
  match setAtomConfiguration Fixtures.firstFound Fixtures.carbon create with
  | Normal after =>
      (countInAtom proton after, countInAtom neutron after,
       countInAtom electron after)
  | _ => (-1, -1, -1)
  end = (6, 6, 6).
Proof. vm_compute. reflexivity. Qed.

End Targets.

(** * Further properties of the code *)

(** ** setAtomConfiguration: outcome, failure and repetition *)

Section ConfigurationOutcome.
Import Particle BuildAnAtomModel.

Variable closer : Particle.t -> Particle.t -> bool.

(** X1: in a well-formed model whose buckets can supply what has to be
    added, setAtomConfiguration returns; each of the three counts ends at its
    target when it did not have to shrink and at zero when it had to; the
    particles of every type are the same as before, only moved; and the model
    stays well formed. *)
Theorem setAtomConfiguration_outcome :
  forall numberAtom this,
    wellFormed this ->
    (forall k, targetCount k numberAtom - countInAtom k this
               <= Z.of_nat (List.length (bucketOf k this))) ->
    exists after,
      setAtomConfiguration closer numberAtom this = Normal after /\
      ParticleAtom.protonCount (particleAtom after)
      = (if NumberAtom.protonCount numberAtom
            <? ParticleAtom.protonCount (particleAtom this)
         then 0 else NumberAtom.protonCount numberAtom) /\
      ParticleAtom.neutronCount (particleAtom after)
      = (if NumberAtom.neutronCount numberAtom
            <? ParticleAtom.neutronCount (particleAtom this)
         then 0 else NumberAtom.neutronCount numberAtom) /\
      ParticleAtom.electronCount (particleAtom after)
      = (if NumberAtom.electronCount numberAtom
            <? ParticleAtom.electronCount (particleAtom this)
         then 0 else NumberAtom.electronCount numberAtom) /\
      (forall k, Permutation (inventory k this) (inventory k after)) /\
      wellFormed after.
Proof.
  intros numberAtom this Hwf Henough.
  destruct (setAtomConfiguration_counts closer numberAtom this Hwf Henough)
    as (after & Hrun & Hcounts & Hperm & Hwfa).
  exists after. split; [exact Hrun |].
  split; [exact (Hcounts proton) |].
  split; [exact (Hcounts neutron) |].
  split; [exact (Hcounts electron) |].
  split; assumption.
Qed.

Lemma closestParticle_none : SphereBucket.extractClosestParticle closer []
                             = (None, []).
Proof. reflexivity. Qed.

(** The first loop runs the bucket dry when it is asked for more than the
    bucket holds. *)
Lemma moveFromBucket_runs_dry k (n : nat) :
  forall fuel current target this,
    wellFormed this ->
    List.length (bucketOf k this) = n ->
    (n < fuel)%nat ->
    current + Z.of_nat n < target ->
    exists message,
      moveFromBucket closer fuel current target k this = Throw message.
Proof.
  induction n as [| n IH]; intros fuel current target this Hwf Hlen Hfuel Hshort;
    (destruct fuel as [| fuel]; [lia |]); cbn [moveFromBucket];
    replace (current <? target) with true by (symmetry; apply Z.ltb_lt; lia).
  - apply length_zero_iff_nil in Hlen. rewrite Hlen, closestParticle_none.
    eexists. reflexivity.
  - destruct (extractClosestParticle_some closer (bucketOf k this))
      as (p & front & back & Hsplit & ->).
    { intros Hnil. rewrite Hnil in Hlen. discriminate Hlen. }
    destruct (extracted_particle_joins_atom k this p front back Hwf Hsplit)
      as (_ & Hb & _ & Hwf').
    apply IH; [exact Hwf' | | lia | lia].
    rewrite Hb. rewrite Hsplit, length_app in Hlen. cbn [List.length] in Hlen.
    rewrite length_app. lia.
Qed.

Lemma moveParticlesToAtom_throws k target this :
  wellFormed this ->
  Z.of_nat (List.length (bucketOf k this)) < target - countInAtom k this ->
  exists message,
    moveParticlesToAtom closer (countInAtom k this) target k this
    = Throw message.
Proof.
  intros Hwf Hshort. unfold moveParticlesToAtom.
  destruct (moveFromBucket_runs_dry k (List.length (bucketOf k this))
              (Z.to_nat (target - countInAtom k this)) (countInAtom k this)
              target this Hwf eq_refl) as [message ->]; [lia | lia |].
  exists message. reflexivity.
Qed.

(** X2: when some target asks for more particles than the atom and the
    bucket of that type hold together, setAtomConfiguration throws: the
    bucket runs empty and the next extraction yields null. *)
Theorem setAtomConfiguration_throws_beyond_supply :
  forall numberAtom this k,
    wellFormed this ->
    Z.of_nat (List.length (inventory k this)) < targetCount k numberAtom ->
    exists message,
      setAtomConfiguration closer numberAtom this = Throw message.
Proof.
  intros numberAtom this k Hwf Hbeyond.
  assert (Hshort : forall k' s,
             particlesInAtom k' s = particlesInAtom k' this ->
             bucketOf k' s = bucketOf k' this ->
             k' = k ->
             Z.of_nat (List.length (bucketOf k' s))
             < targetCount k' numberAtom - countInAtom k' s).
  { intros k' s Hatom Hbucket ->. unfold countInAtom, inventory in *.
    rewrite Hatom, Hbucket. rewrite length_app in Hbeyond. lia. }
  unfold setAtomConfiguration.
  change (Z.of_nat (List.length (ParticleAtom.protons (particleAtom this))))
    with (countInAtom proton this).
  change (NumberAtom.protonCount numberAtom)
    with (targetCount proton numberAtom).
  destruct (Z_lt_le_dec (Z.of_nat (List.length (bucketOf proton this)))
              (targetCount proton numberAtom - countInAtom proton this))
    as [Hp | Hp].
  { destruct (moveParticlesToAtom_throws proton _ this Hwf Hp) as [m ->].
    exists m. reflexivity. }
  destruct (moveParticlesToAtom_count closer proton _ this Hwf Hp)
    as (s1 & -> & _ & _ & Hframe1 & Hwf1).
  cbn [bind].
  change (Z.of_nat (List.length (ParticleAtom.neutrons (particleAtom s1))))
    with (countInAtom neutron s1).
  change (NumberAtom.neutronCount numberAtom)
    with (targetCount neutron numberAtom).
  destruct (Hframe1 neutron) as [Hn1 Hnb1]; [discriminate |].
  destruct (Hframe1 electron) as [He1 Heb1]; [discriminate |].
  destruct (Z_lt_le_dec (Z.of_nat (List.length (bucketOf neutron s1)))
              (targetCount neutron numberAtom - countInAtom neutron s1))
    as [Hn | Hn].
  { destruct (moveParticlesToAtom_throws neutron _ s1 Hwf1 Hn) as [m ->].
    exists m. reflexivity. }
  destruct (moveParticlesToAtom_count closer neutron _ s1 Hwf1 Hn)
    as (s2 & -> & _ & _ & Hframe2 & Hwf2).
  cbn [bind].
  change (Z.of_nat (List.length (ParticleAtom.electrons (particleAtom s2))))
    with (countInAtom electron s2).
  change (NumberAtom.electronCount numberAtom)
    with (targetCount electron numberAtom).
  destruct (Hframe2 electron) as [He2 Heb2]; [discriminate |].
  apply moveParticlesToAtom_throws; [exact Hwf2 |].
  destruct k.
  - pose proof (Hshort proton this eq_refl eq_refl eq_refl). lia.
  - pose proof (Hshort neutron s1 Hn1 Hnb1 eq_refl). lia.
  - apply Hshort; [congruence | congruence | reflexivity].
Qed.

(** X3: called twice in a row with the same target, setAtomConfiguration
    reaches the target, for every target between zero and the number of
    particles the model has of each type: what the first call emptied, the
    second one fills. *)
Theorem setAtomConfiguration_twice_reaches_target :
  forall numberAtom this,
    wellFormed this ->
    (forall k, 0 <= targetCount k numberAtom
                 <= Z.of_nat (List.length (inventory k this))) ->
    exists once twice,
      setAtomConfiguration closer numberAtom this = Normal once /\
      setAtomConfiguration closer numberAtom once = Normal twice /\
      (forall k, countInAtom k once = targetCount k numberAtom
                 \/ countInAtom k once = 0) /\
      (forall k, countInAtom k twice = targetCount k numberAtom).
Proof.
  intros numberAtom this Hwf Hrange.
  assert (Hsize : forall k s,
             Z.of_nat (List.length (inventory k s))
             = countInAtom k s + Z.of_nat (List.length (bucketOf k s))).
  { intros k s. unfold inventory, countInAtom. rewrite length_app. lia. }
  destruct (setAtomConfiguration_counts closer numberAtom this Hwf)
    as (once & Hrun1 & Hcounts1 & Hperm1 & Hwf1).
  { intros k. specialize (Hrange k). rewrite Hsize in Hrange. lia. }
  destruct (setAtomConfiguration_counts closer numberAtom once Hwf1)
    as (twice & Hrun2 & Hcounts2 & _ & _).
  { intros k. specialize (Hrange k).
    rewrite (Permutation_length (Hperm1 k)), Hsize in Hrange. lia. }
  exists once, twice. split; [exact Hrun1 |]. split; [exact Hrun2 |]. split.
  - intros k. rewrite Hcounts1.
    destruct (targetCount k numberAtom <? countInAtom k this); auto.
  - intros k. rewrite Hcounts2, Hcounts1. specialize (Hrange k).
    destruct (Z.ltb_spec (targetCount k numberAtom) (countInAtom k this));
      destruct (Z.ltb_spec (targetCount k numberAtom) 0); try lia.
    destruct (Z.ltb_spec (targetCount k numberAtom) (targetCount k numberAtom));
      lia.
Qed.

End ConfigurationOutcome.

Section ConfigurationWitnesses.
Import Particle BuildAnAtomModel.

Lemma fiveProtons_wellFormed : wellFormed Samples.fiveProtons.
Proof.
  intros k.
  replace (inventory k Samples.fiveProtons) with (inventory k create)
    by (destruct k; reflexivity).
  apply create_wellFormed.
Qed.

(** Carbon-12 built in a new model. *)
Lemma setAtomConfiguration_outcome_witness :
  exists after,
    setAtomConfiguration Fixtures.firstFound Fixtures.carbon create
    = Normal after /\
    ParticleAtom.protonCount (particleAtom after) = 6 /\
    ParticleAtom.neutronCount (particleAtom after) = 6 /\
    ParticleAtom.electronCount (particleAtom after) = 6 /\
    (forall k, Permutation (inventory k create) (inventory k after)) /\
    wellFormed after.
Proof.
  apply (setAtomConfiguration_outcome Fixtures.firstFound Fixtures.carbon
           create create_wellFormed).
  intros []; vm_compute; discriminate.
Defined.

(** Eleven protons asked of a model that has ten. *)
Lemma setAtomConfiguration_throws_beyond_supply_witness :
  exists message,
    setAtomConfiguration Fixtures.firstFound (NumberAtom.new 11 0 0) create
    = Throw message.
Proof.
  apply (setAtomConfiguration_throws_beyond_supply Fixtures.firstFound
           (NumberAtom.new 11 0 0) create proton create_wellFormed).
  vm_compute. reflexivity.
Defined.

(** Five protons, three asked for, twice. *)
Lemma setAtomConfiguration_twice_reaches_target_witness :
  exists once twice,
    setAtomConfiguration Fixtures.firstFound (NumberAtom.new 3 0 0)
      Samples.fiveProtons = Normal once /\
    setAtomConfiguration Fixtures.firstFound (NumberAtom.new 3 0 0) once
    = Normal twice /\
    (forall k, countInAtom k once = targetCount k (NumberAtom.new 3 0 0)
               \/ countInAtom k once = 0) /\
    (forall k, countInAtom k twice = targetCount k (NumberAtom.new 3 0 0)).
Proof.
  apply (setAtomConfiguration_twice_reaches_target Fixtures.firstFound
           (NumberAtom.new 3 0 0) Samples.fiveProtons fiveProtons_wellFormed).
  intros []; vm_compute; split; discriminate.
Defined.

End ConfigurationWitnesses.

(** ** _moveParticlesFromAtomToBucket and the release listener *)

Section BucketsAndRelease.
Import Particle BuildAnAtomModel.

(** X4: in a well-formed model, _moveParticlesFromAtomToBucket returns with
    the whole collection of that type moved: the collection is empty, its
    particles stand at the end of the bucket in their old order, the other
    types are untouched, and a second call changes nothing. *)
Theorem moveParticlesFromAtomToBucket_moves_all :
  forall k this,
    wellFormed this ->
    exists after,
      _moveParticlesFromAtomToBucket k this = Normal after /\
      particlesInAtom k after = [] /\
      bucketOf k after = List.app (bucketOf k this) (particlesInAtom k this) /\
      (forall k', k' <> k ->
                  particlesInAtom k' after = particlesInAtom k' this /\
                  bucketOf k' after = bucketOf k' this) /\
      _moveParticlesFromAtomToBucket k after = Normal after.
Proof.
  intros k this Hwf.
  destruct (moveParticlesFromAtomToBucket_all k this Hwf)
    as (after & Hmove & Hempty & Hbucket & Hframe & _).
  exists after. repeat (split; [assumption |]).
  unfold _moveParticlesFromAtomToBucket. rewrite Hempty. reflexivity.
Qed.

Lemma moveParticlesFromAtomToBucket_moves_all_witness :
  exists after,
    _moveParticlesFromAtomToBucket proton Samples.fiveProtons = Normal after /\
    particlesInAtom proton after = [] /\
    bucketOf proton after
    = List.app (bucketOf proton Samples.fiveProtons)
               (particlesInAtom proton Samples.fiveProtons) /\
    (forall k', k' <> proton ->
                particlesInAtom k' after
                = particlesInAtom k' Samples.fiveProtons /\
                bucketOf k' after = bucketOf k' Samples.fiveProtons) /\
    _moveParticlesFromAtomToBucket proton after = Normal after.
Proof.
  apply (moveParticlesFromAtomToBucket_moves_all proton Samples.fiveProtons
           fiveProtons_wellFormed).
Defined.



End BucketsAndRelease.

(** ** reset *)

Section Reset.
Import Particle BuildAnAtomModel.
Import BuildAnAtomModelObject (isProton).

Lemma reset_nucleons_fold (l : list Particle.t) :
  forall model,
    fold_left
      (fun model nucleon =>
         if Particle.sameType (Particle.type nucleon) proton
         then BuildAnAtomModelObject.addToBucket proton nucleon model
         else BuildAnAtomModelObject.addToBucket neutron nucleon model)
      l model
    = {| particleAtom := particleAtom model;
         buckets :=
           {| protonBucket :=
                List.app (protonBucket (buckets model)) (filter isProton l);
              neutronBucket :=
                List.app (neutronBucket (buckets model))
                         (filter (fun p => negb (isProton p)) l);
              electronBucket := electronBucket (buckets model) |} |}.
Proof.
  induction l as [| p rest IH]; intros [atom [pb nb eb]]; cbn [fold_left filter].
  - cbn. now rewrite !app_nil_r.
  - rewrite IH. unfold isProton.
    destruct (Particle.sameType (Particle.type p) proton); cbn;
      now rewrite <- app_assoc.
Qed.

Lemma reset_electrons_fold (l : list Particle.t) :
  forall model,
    fold_left
      (fun model particle =>
         BuildAnAtomModelObject.addToBucket electron particle model)
      l model
    = {| particleAtom := particleAtom model;
         buckets :=
           {| protonBucket := protonBucket (buckets model);
              neutronBucket := neutronBucket (buckets model);
              electronBucket :=
                List.app (electronBucket (buckets model)) l |} |}.
Proof.
  induction l as [| p rest IH]; intros [atom [pb nb eb]]; cbn [fold_left].
  - cbn. now rewrite app_nil_r.
  - rewrite IH. cbn. now rewrite <- app_assoc.
Qed.

Lemma reset_particles this :
  BuildAnAtomModelObject.particles (BuildAnAtomModelObject.reset this)
  = {| particleAtom := ParticleAtom.empty;
       buckets :=
         {| protonBucket :=
              filter isProton (BuildAnAtomModelObject.nucleons this);
            neutronBucket :=
              filter (fun p => negb (isProton p))
                     (BuildAnAtomModelObject.nucleons this);
            electronBucket := BuildAnAtomModelObject.electrons this |} |}.
Proof.
  unfold BuildAnAtomModelObject.reset.
  cbn [BuildAnAtomModelObject.particles].
  rewrite reset_nucleons_fold, reset_electrons_fold. reflexivity.
Qed.

(** X6: reset empties the atom and refills the buckets from the model's two
    particle arrays, in array order: protons into the proton bucket, every
    other nucleon into the neutron bucket, the electrons into theirs; the
    four settings go back to their initial values; resetting twice is
    resetting once.  With the arrays as the constructor made them, the
    result is the new model, whatever the state was. *)
Theorem reset_restores_the_new_model :
  forall this,
    (BuildAnAtomModelObject.particles (BuildAnAtomModelObject.reset this)
     = {| particleAtom := ParticleAtom.empty;
          buckets :=
            {| protonBucket :=
                 filter isProton (BuildAnAtomModelObject.nucleons this);
               neutronBucket :=
                 filter (fun p => negb (isProton p))
                        (BuildAnAtomModelObject.nucleons this);
               electronBucket := BuildAnAtomModelObject.electrons this |} |}) /\
    BuildAnAtomModelObject.reset (BuildAnAtomModelObject.reset this)
    = BuildAnAtomModelObject.reset this /\
    (BuildAnAtomModelObject.nucleons this
     = BuildAnAtomModelObject.nucleons BuildAnAtomModelObject.create ->
     BuildAnAtomModelObject.electrons this
     = BuildAnAtomModelObject.electrons BuildAnAtomModelObject.create ->
     BuildAnAtomModelObject.reset this = BuildAnAtomModelObject.create).
Proof.
  intros this. split; [apply reset_particles |]. split.
  - unfold BuildAnAtomModelObject.reset at 1 3.
    cbn [BuildAnAtomModelObject.nucleons BuildAnAtomModelObject.electrons].
    reflexivity.
  - intros Hnucleons Helectrons.
    pose proof (reset_particles this) as Hparticles.
    rewrite Hnucleons, Helectrons in Hparticles.
    unfold BuildAnAtomModelObject.reset in *.
    cbn [BuildAnAtomModelObject.particles] in Hparticles.
    rewrite Hparticles, Hnucleons, Helectrons. reflexivity.
Qed.

Lemma reset_restores_the_new_model_witness :
  BuildAnAtomModelObject.reset Samples.played = BuildAnAtomModelObject.create.
Proof.
  apply (proj2 (proj2 (reset_restores_the_new_model Samples.played)));
    reflexivity.
Defined.

(** X7: after a reset, setAtomConfiguration reaches every configuration the
    model has the particles for (at most NUM_PROTONS protons, NUM_NEUTRONS
    neutrons and NUM_ELECTRONS electrons), and leaves the settings alone. *)
Theorem setAtomConfiguration_after_reset_reaches_target :
  forall closer numberAtom this,
    BuildAnAtomModelObject.nucleons this
    = BuildAnAtomModelObject.nucleons BuildAnAtomModelObject.create ->
    BuildAnAtomModelObject.electrons this
    = BuildAnAtomModelObject.electrons BuildAnAtomModelObject.create ->
    0 <= NumberAtom.protonCount numberAtom <= Z.of_nat NUM_PROTONS ->
    0 <= NumberAtom.neutronCount numberAtom <= Z.of_nat NUM_NEUTRONS ->
    0 <= NumberAtom.electronCount numberAtom <= Z.of_nat NUM_ELECTRONS ->
    exists after,
      BuildAnAtomModelObject.setAtomConfiguration closer numberAtom
        (BuildAnAtomModelObject.reset this) = Normal after /\
      ParticleAtom.protonCount
        (particleAtom (BuildAnAtomModelObject.particles after))
      = NumberAtom.protonCount numberAtom /\
      ParticleAtom.neutronCount
        (particleAtom (BuildAnAtomModelObject.particles after))
      = NumberAtom.neutronCount numberAtom /\
      ParticleAtom.electronCount
        (particleAtom (BuildAnAtomModelObject.particles after))
      = NumberAtom.electronCount numberAtom /\
      BuildAnAtomModelObject.showElementName after = true /\
      BuildAnAtomModelObject.showNeutralOrIon after = true /\
      BuildAnAtomModelObject.showStableOrUnstable after = false /\
      BuildAnAtomModelObject.electronShellDepiction after = "orbits".
Proof.
  intros closer numberAtom this Hnucleons Helectrons Hp Hn He.
  rewrite (proj2 (proj2 (reset_restores_the_new_model this))
             Hnucleons Helectrons).
  destruct (setAtomConfiguration_reaches_target closer numberAtom create
              create_wellFormed) as (after & Hrun & Hcounts).
  { intros []; cbn in *; lia. }
  { intros []; cbn in *; lia. }
  unfold BuildAnAtomModelObject.setAtomConfiguration.
  cbn [BuildAnAtomModelObject.particles BuildAnAtomModelObject.create].
  rewrite Hrun. cbn [bind]. eexists. split; [reflexivity |].
  cbn [BuildAnAtomModelObject.particles].
  split; [exact (Hcounts proton) |].
  split; [exact (Hcounts neutron) |].
  split; [exact (Hcounts electron) |].
  repeat split.
Qed.

Lemma setAtomConfiguration_after_reset_reaches_target_witness :
  exists after,
    BuildAnAtomModelObject.setAtomConfiguration Fixtures.firstFound
      (NumberAtom.new 3 0 0) (BuildAnAtomModelObject.reset Samples.played)
    = Normal after /\
    ParticleAtom.protonCount
      (particleAtom (BuildAnAtomModelObject.particles after)) = 3 /\
    ParticleAtom.neutronCount
      (particleAtom (BuildAnAtomModelObject.particles after)) = 0 /\
    ParticleAtom.electronCount
      (particleAtom (BuildAnAtomModelObject.particles after)) = 0 /\
    BuildAnAtomModelObject.showElementName after = true /\
    BuildAnAtomModelObject.showNeutralOrIon after = true /\
    BuildAnAtomModelObject.showStableOrUnstable after = false /\
    BuildAnAtomModelObject.electronShellDepiction after = "orbits".
Proof.
  apply (setAtomConfiguration_after_reset_reaches_target Fixtures.firstFound
           (NumberAtom.new 3 0 0) Samples.played);
    try reflexivity; vm_compute; split; discriminate.
Defined.

End Reset.

(** ** AtomView: the listener that keeps a nucleon's view on its layer *)

Section NucleonLayers.
Import AtomView.

Lemma layerAt_nth (zLayer : Z) (layers : list Layer) :
  0 <= zLayer < Z.of_nat (List.length layers) ->
  exists layer, layerAt zLayer layers = Some layer /\
                nth_error layers (Z.to_nat zLayer) = Some layer.
Proof.
  intros Hrange. unfold layerAt.
  replace (zLayer <? 0) with false by (symmetry; apply Z.ltb_ge; lia).
  destruct (nth_error layers (Z.to_nat zLayer)) as [layer |] eqn:Hnth.
  - now exists layer.
  - apply nth_error_None in Hnth. lia.
Qed.

Lemma layerAt_outside (zLayer : Z) (layers : list Layer) :
  zLayer < 0 \/ Z.of_nat (List.length layers) <= zLayer ->
  layerAt zLayer layers = None.
Proof.
  intros Hout. unfold layerAt.
  destruct (Z.ltb_spec zLayer 0); [reflexivity |].
  apply nth_error_None. lia.
Qed.

Lemma layerAt_some (zLayer : Z) (layers : list Layer) layer :
  layerAt zLayer layers = Some layer ->
  0 <= zLayer /\ nth_error layers (Z.to_nat zLayer) = Some layer.
Proof.
  unfold layerAt. destruct (Z.ltb_spec zLayer 0); [discriminate |]. auto.
Qed.

(** A view that is somewhere in the layers is taken out of the first layer
    that holds it. *)
Lemma removeFromLayers_found nucleon (layers : list Layer) :
  In nucleon (List.concat layers) ->
  exists rest,
    removeFromLayers nucleon layers = Some rest /\
    List.length rest = List.length layers /\
    Permutation (nucleon :: List.concat rest) (List.concat layers).
Proof.
  induction layers as [| layer others IH]; intros Hin; [destruct Hin |].
  cbn [removeFromLayers List.concat] in *.
  destruct (ObservableArray.contains nucleon layer) eqn:Hhere.
  - apply contains_In in Hhere.
    destruct (remove_splits nucleon layer Hhere) as (front & back & Hsplit & ->).
    eexists. split; [reflexivity |]. split; [reflexivity |].
    cbn [List.concat]. rewrite Hsplit, <- !app_assoc. cbn [List.app].
    apply Permutation_middle.
  - apply in_app_or in Hin. destruct Hin as [Hin | Hin].
    + apply contains_In in Hin. congruence.
    + destruct (IH Hin) as (rest & -> & Hlen & Hperm).
      eexists. split; [reflexivity |]. split; [cbn; now rewrite Hlen |].
      cbn [List.concat]. rewrite <- Hperm. apply Permutation_middle.
Qed.

Lemma removeFromLayers_missing nucleon (layers : list Layer) :
  ~ In nucleon (List.concat layers) -> removeFromLayers nucleon layers = None.
Proof.
  induction layers as [| layer others IH]; intros Hnot; [reflexivity |].
  cbn [removeFromLayers List.concat] in *.
  rewrite in_app_iff in Hnot.
  rewrite contains_false by tauto. rewrite IH by tauto. reflexivity.
Qed.

Lemma addChild_spec view (layers : list Layer) :
  forall index layer,
    nth_error layers index = Some layer ->
    List.length (addChild index view layers) = List.length layers /\
    nth_error (addChild index view layers) index
    = Some (List.app layer [view]) /\
    Permutation (List.concat (addChild index view layers)) (view :: List.concat layers).
Proof.
  induction layers as [| first others IH]; intros [| index] layer Hnth;
    try discriminate Hnth; cbn [addChild nth_error List.concat List.length] in *.
  - injection Hnth as ->. repeat split.
    rewrite <- app_assoc. cbn [List.app]. symmetry. apply Permutation_middle.
  - destruct (IH index layer Hnth) as (Hlen & Hat & Hperm).
    rewrite Hlen, Hat. repeat split.
    rewrite Hperm. symmetry. apply Permutation_middle.
Qed.

Lemma NoDup_app_apart {A : Type} (x : A) (l1 l2 : list A) :
  NoDup (List.app l1 l2) -> In x l1 -> In x l2 -> False.
Proof.
  induction l1 as [| a l1 IH]; intros Hnodup H1 H2; [destruct H1 |].
  cbn [List.app] in Hnodup. inversion Hnodup as [| ? ? Hnotin Hrest]; subst.
  destruct H1 as [-> | H1].
  - apply Hnotin. apply in_or_app. now right.
  - now apply IH.
Qed.

(** When no view stands in two places, a view is on one layer only. *)
Lemma one_layer_per_view (x : Particle.t) (layers : list Layer) :
  NoDup (List.concat layers) ->
  forall i j li lj,
    nth_error layers i = Some li -> nth_error layers j = Some lj ->
    In x li -> In x lj -> i = j.
Proof.
  induction layers as [| first others IH]; intros Hnodup i j li lj Hi Hj Hxi Hxj.
  - destruct i; discriminate Hi.
  - cbn [List.concat] in Hnodup.
    assert (Hsep : forall l k, nth_error others k = Some l -> In x l ->
                               In x first -> False).
    { intros l k Hk Hxl Hxf.
      apply (NoDup_app_apart x _ _ Hnodup Hxf).
      apply in_concat. exists l. split; [| exact Hxl].
      eapply nth_error_In; exact Hk. }
    destruct i as [| i], j as [| j]; cbn [nth_error] in Hi, Hj.
    + reflexivity.
    + injection Hi as <-. exfalso. eapply Hsep; eassumption.
    + injection Hj as <-. exfalso. eapply Hsep; eassumption.
    + f_equal. apply (IH (NoDup_app_remove_l _ _ Hnodup) i j li lj);
        assumption.
Qed.

(** X8: for a layer index inside the array and a nucleon whose view is on
    some layer, the listener returns with the view on the layer asked for;
    the number of layers and the views are the same as before (only this one
    may have moved); if no view stood in two places before, none does after,
    and the nucleon's view is on that layer only; and when the view already
    was on the right layer nothing changes. *)
Theorem zLayerListener_puts_view_on_its_layer :
  forall assertEnabled nucleon zLayer (layers : list Layer),
    0 <= zLayer < Z.of_nat (List.length layers) ->
    In nucleon (List.concat layers) ->
    exists after,
      zLayerListener assertEnabled nucleon zLayer layers = Normal after /\
      List.length after = List.length layers /\
      (exists layer, layerAt zLayer after = Some layer /\ In nucleon layer) /\
      Permutation (List.concat after) (List.concat layers) /\
      (NoDup (List.concat layers) ->
       NoDup (List.concat after) /\
       forall other layer,
         layerAt other after = Some layer -> In nucleon layer ->
         other = zLayer) /\
      ((exists layer, layerAt zLayer layers = Some layer /\ In nucleon layer) ->
       after = layers).
Proof.
  intros assertEnabled nucleon zLayer layers Hrange Hin.
  assert (Hresult :
            exists after,
              zLayerListener assertEnabled nucleon zLayer layers = Normal after /\
              List.length after = List.length layers /\
              (exists layer, layerAt zLayer after = Some layer /\
                             In nucleon layer) /\
              Permutation (List.concat after) (List.concat layers) /\
              ((exists layer, layerAt zLayer layers = Some layer /\
                              In nucleon layer) -> after = layers)).
  { unfold zLayerListener, ToElementChallenge.assert.
    replace (zLayer <? Z.of_nat (List.length layers)) with true
      by (symmetry; apply Z.ltb_lt; lia).
    replace (assertEnabled && negb true) with false
      by (now destruct assertEnabled).
    cbn [bind].
    destruct (layerAt_nth zLayer layers Hrange) as (layer & Hat & Hnth).
    rewrite Hat.
    destruct (ObservableArray.contains nucleon layer) eqn:Hhere.
    - apply contains_In in Hhere. exists layers.
      split; [reflexivity |]. split; [reflexivity |].
      split; [now exists layer |]. split; [reflexivity | reflexivity].
    - destruct (removeFromLayers_found nucleon layers Hin)
        as (rest & -> & Hlen & Hperm).
      assert (Hrest : exists l, nth_error rest (Z.to_nat zLayer) = Some l).
      { destruct (nth_error rest (Z.to_nat zLayer)) as [l |] eqn:Hn;
          [now exists l |].
        apply nth_error_None in Hn. lia. }
      destruct Hrest as [l Hl].
      destruct (addChild_spec nucleon rest (Z.to_nat zLayer) l Hl)
        as (Hlen' & Hat' & Hperm').
      eexists. split; [reflexivity |]. split; [congruence |]. split.
      { exists (List.app l [nucleon]). split.
        - unfold layerAt.
          replace (zLayer <? 0) with false by (symmetry; apply Z.ltb_ge; lia).
          exact Hat'.
        - apply in_or_app. right. now left. }
      split; [now rewrite Hperm' |].
      intros (layer' & Hat2 & Hin2).
      injection Hat2 as <-. apply contains_In in Hin2. congruence. }
  destruct Hresult as (after & Hrun & Hlen & Hplace & Hperm & Hsame).
  exists after. split; [exact Hrun |]. split; [exact Hlen |].
  split; [exact Hplace |]. split; [exact Hperm |]. split; [| exact Hsame].
  intros Hnodup.
  assert (Hnodup' : NoDup (List.concat after)).
  { eapply Permutation_NoDup; [symmetry; exact Hperm | exact Hnodup]. }
  split; [exact Hnodup' |].
  intros other layer Hother Hin'.
  destruct Hplace as (layer0 & Hat0 & Hin0).
  apply layerAt_some in Hother. apply layerAt_some in Hat0.
  destruct Hother as [Hpos Hother]. destruct Hat0 as [Hpos0 Hat0].
  pose proof (one_layer_per_view nucleon after Hnodup' _ _ _ _
                Hother Hat0 Hin' Hin0).
  lia.
Qed.

(** The proton of the front layer sent to layer 2. *)
Lemma zLayerListener_puts_view_on_its_layer_witness :
  exists after,
    zLayerListener true Samples.proton0 2 Samples.twoInFront = Normal after /\
    List.length after = List.length Samples.twoInFront /\
    (exists layer, layerAt 2 after = Some layer /\ In Samples.proton0 layer) /\
    Permutation (List.concat after) (List.concat Samples.twoInFront) /\
    (NoDup (List.concat Samples.twoInFront) ->
     NoDup (List.concat after) /\
     forall other layer,
       layerAt other after = Some layer -> In Samples.proton0 layer ->
       other = 2) /\
    ((exists layer, layerAt 2 Samples.twoInFront = Some layer /\
                    In Samples.proton0 layer) ->
     after = Samples.twoInFront).
Proof.
  apply (zLayerListener_puts_view_on_its_layer true Samples.proton0 2
           Samples.twoInFront).
  - vm_compute. split; [discriminate | reflexivity].
  - cbn. tauto.
Defined.

(** X9: the listener throws, with assertions on or off, when the layer index
    lies outside the array of layers or when no layer holds the nucleon's
    view; so it returns exactly in the case of X8. *)
Theorem zLayerListener_throws_otherwise :
  forall assertEnabled nucleon zLayer (layers : list Layer),
    zLayer < 0 \/ Z.of_nat (List.length layers) <= zLayer
    \/ ~ In nucleon (List.concat layers) ->
    exists message,
      zLayerListener assertEnabled nucleon zLayer layers = Throw message.
Proof.
  intros assertEnabled nucleon zLayer layers Hbad.
  unfold zLayerListener, ToElementChallenge.assert.
  destruct (assertEnabled
            && negb (zLayer <? Z.of_nat (List.length layers))) eqn:Hassert;
    cbn [bind]; [eexists; reflexivity |].
  destruct (layerAt zLayer layers) as [layer |] eqn:Hat;
    [| eexists; reflexivity].
  assert (Hmissing : ~ In nucleon (List.concat layers)).
  { destruct Hbad as [Hneg | [Hbig | Hnot]]; [| | exact Hnot].
    - rewrite layerAt_outside in Hat by lia. discriminate Hat.
    - rewrite layerAt_outside in Hat by lia. discriminate Hat. }
  apply layerAt_some in Hat. destruct Hat as [_ Hnth].
  rewrite contains_false.
  - rewrite (removeFromLayers_missing nucleon layers Hmissing).
    destruct assertEnabled; cbn; eexists; reflexivity.
  - intros Hhere. apply Hmissing. apply in_concat. exists layer.
    split; [eapply nth_error_In; exact Hnth | exact Hhere].
Qed.

(** A layer index equal to the number of layers. *)
Lemma zLayerListener_throws_otherwise_witness :
  exists message,
    zLayerListener false Samples.proton0 5 Samples.twoInFront = Throw message.
Proof.
  apply (zLayerListener_throws_otherwise false Samples.proton0 5
           Samples.twoInFront).
  right. left. vm_compute. discriminate.
Defined.

End NucleonLayers.

(** ** ChargeComparisonDisplay.update *)

Section ChargeComparison.
Import ChargeComparisonDisplay.

Lemma setVisible_length index visible (symbols : list bool) :
  List.length (setVisible index visible symbols) = List.length symbols.
Proof.
  revert index. induction symbols as [| v rest IH]; intros [| index];
    cbn; auto.
Qed.

Lemma setVisible_firstn visible (symbols : list bool) :
  forall index,
    (index < List.length symbols)%nat ->
    firstn (S index) (setVisible index visible symbols)
    = List.app (firstn index symbols) [visible].
Proof.
  induction symbols as [| v rest IH]; intros [| index] Hlt; cbn in Hlt;
    try lia.
  - reflexivity.
  - cbn [setVisible]. rewrite !firstn_cons. rewrite IH by lia. reflexivity.
Qed.

(** The loop over the places [a], ..., [a + n - 1]. *)
Lemma toggle_from (count : Z) (n : nat) :
  forall a (symbols : list bool),
    List.length symbols = (a + n)%nat ->
    fold_left
      (fun acc index => setVisible index (Z.of_nat index <? count) acc)
      (seq a n) symbols
    = List.app (firstn a symbols)
               (map (fun index => Z.of_nat index <? count) (seq a n)).
Proof.
  induction n as [| n IH]; intros a symbols Hlen; cbn [seq fold_left map].
  - rewrite app_nil_r. rewrite firstn_all2 by lia. reflexivity.
  - rewrite IH by (rewrite setVisible_length; lia).
    rewrite setVisible_firstn by lia.
    rewrite <- app_assoc. reflexivity.
Qed.

Lemma toggle_all MAX_CHARGE (count : Z) (symbols : list bool) :
  List.length symbols = MAX_CHARGE ->
  toggle MAX_CHARGE count symbols
  = map (fun index => Z.of_nat index <? count) (seq 0 MAX_CHARGE).
Proof.
  intros Hlen. unfold toggle. rewrite toggle_from by (cbn; lia). reflexivity.
Qed.

(** The places below the count are shown, the others hidden. *)
Lemma shown_places (count : Z) (n : nat) :
  forall a,
    map (fun index => Z.of_nat index <? count) (seq a n)
    = List.app
        (repeat true (Z.to_nat (Z.min (count - Z.of_nat a) (Z.of_nat n))))
        (repeat false
                (n - Z.to_nat (Z.min (count - Z.of_nat a) (Z.of_nat n)))).
Proof.
  induction n as [| n IH]; intros a.
  - cbn [seq map]. replace (Z.to_nat _) with 0%nat by lia. reflexivity.
  - cbn [seq map]. rewrite IH.
    destruct (Z.ltb_spec (Z.of_nat a) count) as [Hlt | Hge].
    + replace (Z.to_nat (Z.min (count - Z.of_nat a) (Z.of_nat (S n))))
        with (S (Z.to_nat (Z.min (count - Z.of_nat (S a)) (Z.of_nat n))))
        by lia.
      cbn [repeat List.app Nat.sub]. reflexivity.
    + replace (Z.to_nat (Z.min (count - Z.of_nat a) (Z.of_nat (S n))))
        with 0%nat by lia.
      replace (Z.to_nat (Z.min (count - Z.of_nat (S a)) (Z.of_nat n)))
        with 0%nat by lia.
      rewrite Nat.sub_0_r. reflexivity.
Qed.

Lemma shown_prefix (k m : nat) :
  shown (List.app (repeat true k) (repeat false m)) = Z.of_nat k.
Proof.
  unfold shown. f_equal. induction k as [| k IH]; cbn.
  - induction m as [| m IHm]; cbn; auto.
  - now rewrite IH.
Qed.

(** X10: after update, the plus symbols shown are the first
    min(protonCount, MAX_CHARGE) ones and the minus symbols shown the first
    min(electronCount, MAX_CHARGE) ones (none for a count below one), so for
    counts within 0..MAX_CHARGE the number of plusses shown minus the number
    of minuses shown is the atom's charge; the box spans
    min(protonCount, electronCount) pairs and is visible exactly when there
    is at least one proton and one electron. *)
Theorem update_shows_the_charge :
  forall MAX_CHARGE protonCount electronCount this,
    List.length (plusses this) = MAX_CHARGE ->
    List.length (minuses this) = MAX_CHARGE ->
    let display := update MAX_CHARGE protonCount electronCount this in
    let shownOf count := Z.to_nat (Z.min count (Z.of_nat MAX_CHARGE)) in
    plusses display
    = List.app (repeat true (shownOf protonCount))
               (repeat false (MAX_CHARGE - shownOf protonCount)) /\
    minuses display
    = List.app (repeat true (shownOf electronCount))
               (repeat false (MAX_CHARGE - shownOf electronCount)) /\
    (matchBoxVisible display = true <-> 0 < protonCount /\ 0 < electronCount) /\
    numMatchedSymbols display = Z.min protonCount electronCount /\
    (0 <= protonCount <= Z.of_nat MAX_CHARGE ->
     0 <= electronCount <= Z.of_nat MAX_CHARGE ->
     shown (plusses display) - shown (minuses display)
     = protonCount - electronCount /\
     numMatchedSymbols display
     = Z.min (shown (plusses display)) (shown (minuses display))).
Proof.
  intros MAX_CHARGE protonCount electronCount this Hplus Hminus display shownOf.
  assert (Hp : plusses display
               = List.app (repeat true (shownOf protonCount))
                          (repeat false (MAX_CHARGE - shownOf protonCount))).
  { unfold display, update. cbn [plusses].
    rewrite toggle_all by exact Hplus. rewrite shown_places.
    unfold shownOf. now rewrite Z.sub_0_r. }
  assert (He : minuses display
               = List.app (repeat true (shownOf electronCount))
                          (repeat false (MAX_CHARGE - shownOf electronCount))).
  { unfold display, update. cbn [minuses].
    rewrite toggle_all by exact Hminus. rewrite shown_places.
    unfold shownOf. now rewrite Z.sub_0_r. }
  split; [exact Hp |]. split; [exact He |]. split.
  { unfold display, update. cbn [matchBoxVisible]. rewrite Z.ltb_lt. lia. }
  split; [reflexivity |].
  intros Hprange Herange. rewrite Hp, He, !shown_prefix.
  unfold display, update, shownOf. cbn [numMatchedSymbols]. lia.
Qed.

(** Three protons and one electron on the display of a model with
    MAX_CHARGE = 10. *)
Lemma update_shows_the_charge_witness :
  shown (plusses (update BuildAnAtomModelObject.MAX_CHARGE 3 1
                    (create BuildAnAtomModelObject.MAX_CHARGE)))
  - shown (minuses (update BuildAnAtomModelObject.MAX_CHARGE 3 1
                      (create BuildAnAtomModelObject.MAX_CHARGE)))
  = 3 - 1.
Proof.
  apply (proj2 (proj2 (proj2 (proj2
           (update_shows_the_charge BuildAnAtomModelObject.MAX_CHARGE 3 1
              (create BuildAnAtomModelObject.MAX_CHARGE)
              eq_refl eq_refl)))));
    vm_compute; split; discriminate.
Defined.

End ChargeComparison.

(** ** NonInteractiveSchematicAtomNode: the atom built from a NumberAtom *)

Section SchematicAtom.
Import NonInteractiveSchematicAtomNode.

Lemma createAndAddParticles_from type (n : nat) :
  forall a this,
    fold_left
      (fun acc index =>
         let particle := {| Particle.type := type; Particle.id := index |} in
         {| particleAtom := ParticleAtom.addParticle particle (particleAtom acc);
            modelParticles := List.app (modelParticles acc) [particle];
            particleViews := List.app (particleViews acc) [particle] |})
      (seq a n) this
    = {| particleAtom :=
           fold_left (fun atom p => ParticleAtom.addParticle p atom)
                     (made type a n) (particleAtom this);
         modelParticles := List.app (modelParticles this) (made type a n);
         particleViews := List.app (particleViews this) (made type a n) |}.
Proof.
  induction n as [| n IH]; intros a [atom particles views]; unfold made;
    cbn [seq map fold_left].
  - cbn. now rewrite !app_nil_r.
  - rewrite IH. cbn. unfold made. now rewrite <- !app_assoc.
Qed.

Lemma addParticles_same_type type (l : list Particle.t) :
  Forall (fun p => Particle.type p = type) l ->
  forall atom,
    fold_left (fun atom p => ParticleAtom.addParticle p atom) l atom
    = match type with
      | Particle.proton =>
          {| ParticleAtom.protons := List.app (ParticleAtom.protons atom) l;
             ParticleAtom.neutrons := ParticleAtom.neutrons atom;
             ParticleAtom.electrons := ParticleAtom.electrons atom |}
      | Particle.neutron =>
          {| ParticleAtom.protons := ParticleAtom.protons atom;
             ParticleAtom.neutrons := List.app (ParticleAtom.neutrons atom) l;
             ParticleAtom.electrons := ParticleAtom.electrons atom |}
      | Particle.electron =>
          {| ParticleAtom.protons := ParticleAtom.protons atom;
             ParticleAtom.neutrons := ParticleAtom.neutrons atom;
             ParticleAtom.electrons := List.app (ParticleAtom.electrons atom) l |}
      end.
Proof.
  induction 1 as [| p rest Hp _ IH]; intros [ps ns es]; cbn [fold_left].
  - destruct type; cbn; now rewrite app_nil_r.
  - rewrite IH. unfold ParticleAtom.addParticle. rewrite Hp.
    destruct type; cbn; now rewrite <- app_assoc.
Qed.

Lemma made_typed type a n :
  Forall (fun p => Particle.type p = type) (made type a n).
Proof.
  apply Forall_forall. intros p Hin. apply in_map_iff in Hin.
  destruct Hin as (i & <- & _). reflexivity.
Qed.

Lemma createAndAddParticles_adds type number this :
  createAndAddParticles type number this
  = {| particleAtom :=
         fold_left (fun atom p => ParticleAtom.addParticle p atom)
                   (made type 0 (Z.to_nat number)) (particleAtom this);
       modelParticles :=
         List.app (modelParticles this) (made type 0 (Z.to_nat number));
       particleViews :=
         List.app (particleViews this) (made type 0 (Z.to_nat number)) |}.
Proof. apply createAndAddParticles_from. Qed.

(** X11: the schematic atom built from a NumberAtom holds, of each type, as
    many particles as the NumberAtom counts (none for a count below one), so
    for counts that are not negative its particle counts, its charge and its
    weight are the NumberAtom's counts, charge and mass number; it keeps one
    model particle and one view per particle, and no particle twice. *)
Theorem schematic_atom_has_the_counts :
  forall numberAtom,
    let node := create numberAtom in
    ParticleAtom.protons (particleAtom node)
    = made Particle.proton 0 (Z.to_nat (NumberAtom.protonCount numberAtom)) /\
    ParticleAtom.neutrons (particleAtom node)
    = made Particle.neutron 0 (Z.to_nat (NumberAtom.neutronCount numberAtom)) /\
    ParticleAtom.electrons (particleAtom node)
    = made Particle.electron 0
           (Z.to_nat (NumberAtom.electronCount numberAtom)) /\
    modelParticles node
    = List.app (ParticleAtom.protons (particleAtom node))
        (List.app (ParticleAtom.neutrons (particleAtom node))
                  (ParticleAtom.electrons (particleAtom node))) /\
    particleViews node = modelParticles node /\
    NoDup (modelParticles node) /\
    (0 <= NumberAtom.protonCount numberAtom ->
     0 <= NumberAtom.neutronCount numberAtom ->
     0 <= NumberAtom.electronCount numberAtom ->
     ParticleAtom.protonCount (particleAtom node)
     = NumberAtom.protonCount numberAtom /\
     ParticleAtom.neutronCount (particleAtom node)
     = NumberAtom.neutronCount numberAtom /\
     ParticleAtom.electronCount (particleAtom node)
     = NumberAtom.electronCount numberAtom /\
     AtomNode.getCharge (particleAtom node) = NumberAtom.charge numberAtom /\
     AtomNode.getWeight (particleAtom node)
     = NumberAtom.massNumber numberAtom).
Proof.
  intros [p n e] node.
  assert (Hnode :
            node
            = {| particleAtom :=
                   {| ParticleAtom.protons :=
                        made Particle.proton 0 (Z.to_nat p);
                      ParticleAtom.neutrons :=
                        made Particle.neutron 0 (Z.to_nat n);
                      ParticleAtom.electrons :=
                        made Particle.electron 0 (Z.to_nat e) |};
                 modelParticles :=
                   List.app (made Particle.proton 0 (Z.to_nat p))
                     (List.app (made Particle.neutron 0 (Z.to_nat n))
                               (made Particle.electron 0 (Z.to_nat e)));
                 particleViews :=
                   List.app (made Particle.proton 0 (Z.to_nat p))
                     (List.app (made Particle.neutron 0 (Z.to_nat n))
                               (made Particle.electron 0 (Z.to_nat e))) |}).
  { unfold node, create. rewrite !createAndAddParticles_adds.
    cbn [particleAtom modelParticles particleViews empty NumberAtom.protonCount
         NumberAtom.neutronCount NumberAtom.electronCount].
    rewrite (addParticles_same_type Particle.proton _ (made_typed _ _ _)).
    rewrite (addParticles_same_type Particle.neutron _ (made_typed _ _ _)).
    rewrite (addParticles_same_type Particle.electron _ (made_typed _ _ _)).
    cbn. now rewrite <- !app_assoc. }
  rewrite Hnode.
  cbn [particleAtom modelParticles particleViews ParticleAtom.protons
       ParticleAtom.neutrons ParticleAtom.electrons NumberAtom.protonCount
       NumberAtom.neutronCount NumberAtom.electronCount].
  repeat (split; [reflexivity |]). split.
  - assert (Hmade : forall type k, NoDup (made type 0 k)).
    { intros type k. unfold made. apply Finite.Injective_map_NoDup.
      - intros i j [= ->]. reflexivity.
      - apply seq_NoDup. }
    assert (Htype : forall type k q, In q (made type 0 k) ->
                                     Particle.type q = type).
    { intros type k q Hin. pose proof (made_typed type 0 k) as Ht.
      rewrite Forall_forall in Ht. now apply Ht. }
    apply NoDup_app; [apply Hmade | apply NoDup_app; try apply Hmade |].
    + intros q Hn He. apply Htype in Hn. apply Htype in He. congruence.
    + intros q Hp Hrest. apply Htype in Hp. apply in_app_or in Hrest.
      destruct Hrest as [H | H]; apply Htype in H; congruence.
  - intros Hp Hn He.
    unfold AtomNode.getCharge, AtomNode.getWeight, ParticleAtom.protonCount,
      ParticleAtom.neutronCount, ParticleAtom.electronCount,
      NumberAtom.charge, NumberAtom.massNumber, made.
    cbn [ParticleAtom.protons ParticleAtom.neutrons ParticleAtom.electrons
         NumberAtom.protonCount NumberAtom.neutronCount
         NumberAtom.electronCount].
    rewrite !length_map, !length_seq. lia.
Qed.

(** The lithium ion drawn as a schematic atom. *)
Lemma schematic_atom_has_the_counts_witness :
  AtomNode.getCharge (particleAtom (create Fixtures.lithiumIon))
  = NumberAtom.charge Fixtures.lithiumIon.
Proof.
  apply (proj2 (proj2 (proj2 (proj2 (proj2 (proj2
           (schematic_atom_has_the_counts Fixtures.lithiumIon)))))));
    vm_compute; discriminate.
Defined.

End SchematicAtom.

(** ** The to-element view: selection, clearing and the check button *)

Section ElementAnswer.
Import BAAGameChallenge ToElementChallenge.

Lemma undeclared_is_incorrect answer submitted declared :
  declared <> "neutral" -> declared <> "ion" ->
  isCorrectFor answer submitted declared = false.
Proof.
  intros Hneutral Hion. apply not_true_is_false. intros Hcorrect.
  apply isCorrectFor_true_iff in Hcorrect.
  destruct Hcorrect as (_ & _ & [[H _] | [H _]]); contradiction.
Qed.

(** X12: an answer submitted without a choice between neutral atom and ion
    is never judged correct, whatever the atoms are: in particular the
    answer of a view that was just cleared, for which the check button is
    disabled.  Displaying the correct answer enables the button again. *)
Theorem cleared_answer_is_never_correct :
  forall assertEnabled view,
    assertionPasses assertEnabled (ToElementProblemView.problem view) ->
    (ToElementProblemView.neutralOrIon view <> "neutral" ->
     ToElementProblemView.neutralOrIon view <> "ion" ->
     exists ev,
       ToElementProblemView.checkAnswer assertEnabled view = Normal ev /\
       isCorrect ev = false) /\
    (exists ev,
       ToElementProblemView.checkAnswer assertEnabled
         (ToElementProblemView.clearAnswer view) = Normal ev /\
       isCorrect ev = false /\
       submittedAtom ev = NumberAtom.new 0 0 0) /\
    ToElementProblemView.checkAnswerButtonEnabled
      (ToElementProblemView.clearAnswer view) = false /\
    ToElementProblemView.checkAnswerButtonEnabled
      (ToElementProblemView.displayCorrectAnswer view) = true.
Proof.
  intros assertEnabled view Hpass. split; [| split; [| split]].
  - intros Hneutral Hion. unfold ToElementProblemView.checkAnswer.
    rewrite checkAnswer_passes by exact Hpass.
    eexists. split; [reflexivity |].
    cbn [isCorrect evaluated]. now apply undeclared_is_incorrect.
  - unfold ToElementProblemView.checkAnswer.
    rewrite checkAnswer_passes by exact Hpass.
    eexists. split; [reflexivity |]. split; [| reflexivity].
    cbn [isCorrect evaluated]. apply undeclared_is_incorrect; discriminate.
  - reflexivity.
  - unfold ToElementProblemView.checkAnswerButtonEnabled,
      ToElementProblemView.displayCorrectAnswer.
    cbn [ToElementProblemView.neutralOrIon].
    destruct (NumberAtom.charge _ =? 0); reflexivity.
Qed.

(** The lithium challenge with the right counts and no choice made. *)
Lemma cleared_answer_is_never_correct_witness :
  exists ev,
    ToElementProblemView.checkAnswer true
      {| ToElementProblemView.periodicTableAtom := Fixtures.lithiumIon;
         ToElementProblemView.neutralOrIon := ToElementProblemView.noSelection;
         ToElementProblemView.problem := Fixtures.lithiumChallenge |}
    = Normal ev /\
    isCorrect ev = false.
Proof.
  apply (proj1 (cleared_answer_is_never_correct true
                  {| ToElementProblemView.periodicTableAtom :=
                       Fixtures.lithiumIon;
                     ToElementProblemView.neutralOrIon :=
                       ToElementProblemView.noSelection;
                     ToElementProblemView.problem :=
                       Fixtures.lithiumChallenge |}
                  (or_intror eq_refl)));
    discriminate.
Defined.

End ElementAnswer.

(** ** The symbol view: numbers entered and atom submitted *)

Section SymbolConversion.
Import CountsToSymbolChallengeView.

(** X13: the atom that the symbol view submits has the proton count, the
    mass number and the charge that were entered, so two different entries
    never submit the same atom; and showing the correct answer for that atom
    puts the entered numbers back. *)
Theorem submitted_atom_carries_the_entry :
  forall view,
    NumberAtom.protonCount (userSubmittedAtom view)
    = InteractiveSymbolNode.protonCount (interactiveSymbolNode view) /\
    NumberAtom.massNumber (userSubmittedAtom view)
    = InteractiveSymbolNode.massNumber (interactiveSymbolNode view) /\
    NumberAtom.charge (userSubmittedAtom view)
    = InteractiveSymbolNode.charge (interactiveSymbolNode view) /\
    (forall other,
        userSubmittedAtom other = userSubmittedAtom view ->
        interactiveSymbolNode other = interactiveSymbolNode view) /\
    (forall type state attempts,
        interactiveSymbolNode
          (displayCorrectAnswer
             {| interactiveSymbolNode := interactiveSymbolNode view;
                challenge :=
                  {| BAAGameChallenge.answerAtom := userSubmittedAtom view;
                     BAAGameChallenge.challengeType := type;
                     BAAGameChallenge.challengeState := state;
                     BAAGameChallenge.attemptsMade := attempts |} |})
        = interactiveSymbolNode view).
Proof.
  intros [[p m c] challenge].
  unfold userSubmittedAtom, NumberAtom.massNumber, NumberAtom.charge.
  cbn. repeat split; try lia.
  - intros [[p' m' c'] challenge']. cbn. intros [= Hp Hm Hc].
    f_equal; lia.
  - intros _ _ _. unfold NumberAtom.massNumber, NumberAtom.charge. cbn.
    f_equal; lia.
Qed.

End SymbolConversion.

(** ** The labels of the atom against the model and the game *)

Section AtomLabels.
Import AtomNode.

Lemma protonCount_nonneg atom : 0 <= ParticleAtom.protonCount atom.
Proof. unfold ParticleAtom.protonCount. lia. Qed.

(** X14: the ion label reads 'Neutral Atom' exactly when the atom has a
    proton and the game classifies its charge as 'neutral', '+ Ion' or
    '- Ion' exactly when it has a proton and its charge is above or below
    zero, and is empty exactly when there is no proton.  The stability label
    never contradicts the model: 'Stable' only when nucleusStableProperty is
    true, 'Unstable' only when it is false; it is empty exactly when there is
    no proton, also for a nucleus of neutrons only. *)
Theorem labels_agree_with_model_and_game :
  forall isStable this,
    let atom := BuildAnAtomModel.particleAtom this in
    (text (updateIonIndicator atom) = "Neutral Atom" <->
     0 < ParticleAtom.protonCount atom /\
     ToElementChallenge.chargeClassification (getCharge atom) = "neutral") /\
    (text (updateIonIndicator atom) = "+ Ion" <->
     0 < ParticleAtom.protonCount atom /\ 0 < getCharge atom) /\
    (text (updateIonIndicator atom) = "- Ion" <->
     0 < ParticleAtom.protonCount atom /\ getCharge atom < 0) /\
    (text (updateIonIndicator atom) = "" <->
     ParticleAtom.protonCount atom = 0) /\
    (updateStabilityIndicator isStable atom = "Stable" ->
     BuildAnAtomModel.nucleusStableProperty isStable this = true) /\
    (updateStabilityIndicator isStable atom = "Unstable" ->
     BuildAnAtomModel.nucleusStableProperty isStable this = false) /\
    (updateStabilityIndicator isStable atom = "" <->
     ParticleAtom.protonCount atom = 0) /\
    (centerMarkerVisible atom = true ->
     text (updateIonIndicator atom) = "" /\
     updateStabilityIndicator isStable atom = "").
Proof.
  intros isStable this atom.
  pose proof (protonCount_nonneg atom) as Hp.
  assert (Hn : 0 <= ParticleAtom.neutronCount atom)
    by (unfold ParticleAtom.neutronCount; lia).
  unfold updateIonIndicator, updateStabilityIndicator, centerMarkerVisible,
    getWeight, BuildAnAtomModel.nucleusStableProperty,
    BuildAnAtomModel.nucleusStable,
    ToElementChallenge.chargeClassification.
  fold atom.
  destruct (Z.ltb_spec 0 (ParticleAtom.protonCount atom)) as [Hpos | Hzero].
  - replace (0 <? ParticleAtom.protonCount atom
                  + ParticleAtom.neutronCount atom) with true
      by (symmetry; apply Z.ltb_lt; lia).
    replace (ParticleAtom.protonCount atom + ParticleAtom.neutronCount atom
             =? 0) with false by (symmetry; apply Z.eqb_neq; lia).
    destruct (Z.ltb_spec (getCharge atom) 0);
      destruct (Z.ltb_spec 0 (getCharge atom));
      destruct (Z.eqb_spec (getCharge atom) 0);
      destruct (isStable _ _); cbn [text];
      repeat split; intros; try discriminate; try lia;
        try (exfalso; lia); intuition (try discriminate; try lia).
  - cbn [text].
    repeat split; intros; try discriminate; try lia;
      intuition (try discriminate; try lia).
Qed.

(** The carbon-12 nucleus under a table that calls nothing stable. *)
Lemma labels_agree_with_model_and_game_witness :
  BuildAnAtomModel.nucleusStableProperty Fixtures.nothingStable
    Fixtures.carbonNucleus = false.
Proof.
  apply (proj1 (proj2 (proj2 (proj2 (proj2 (proj2
           (labels_agree_with_model_and_game Fixtures.nothingStable
              Fixtures.carbonNucleus))))))).
  reflexivity.
Defined.



End AtomLabels.

(** ** SymbolNode: the charge shown in the symbol *)

Section SymbolCharge.
Import SymbolNode.




End SymbolCharge.

(** ** The game screen's listener on the game state *)

Section GameScreenListener.
Import BAAGameScreenView.

(** X17: the listener plays a sound only when a level is completed, and then
    at most one; the scoreboard is on the screen exactly while a challenge is
    presented; choosing a level leaves only the level selection, with no
    reward and no dialog kept; and a completed level shows its dialog exactly
    when feedback is provided, as the last node, with the level counted from
    one and the score of the game model. *)
Theorem stateListener_sounds_and_nodes :
  forall C P reward gameModel state self,
    let after := stateListener C P reward gameModel state self in
    (state <> LEVEL_COMPLETED -> played after = played self) /\
    (played after = played self
     \/ exists sound, played after = sound :: played self) /\
    (In Scoreboard (rootNode after)
     <-> exists challenge, state = PresentingChallenge challenge) /\
    (state = CHOOSING_LEVEL ->
     rootNode after = [StartGameLevelNode] /\
     rewardNode after = None /\ levelCompletedNode after = None) /\
    (state = LEVEL_COMPLETED ->
     if provideFeedback gameModel then
       exists node before,
         levelCompletedNode after = Some node /\
         rootNode after = List.app before [LevelCompleted node] /\
         shownLevel node = level gameModel + 1 /\
         shownScore node = score gameModel /\
         perfectScore node = C * P /\
         numberOfChallenges node = C
     else
       levelCompletedNode after = levelCompletedNode self /\
       forall node, ~ In (LevelCompleted node) (rootNode after)).
Proof.
  intros C P reward gameModel state self after.
  destruct state as [| | challenge]; unfold after; cbn [stateListener].
  - repeat split; auto.
    + intros [H | []]. discriminate H.
    + intros [c H]. discriminate H.
    + intros H. discriminate H.
  - split; [intros H; now contradiction H |].
    destruct (levelCompleted_fields C P reward gameModel self)
      as (_ & _ & Hplayed).
    split.
    { rewrite Hplayed.
      destruct ((score gameModel =? MAX_POINTS_PER_GAME_LEVEL C P) || reward);
        [right; eexists; reflexivity |].
      destruct (0 <? score gameModel);
        [right; eexists; reflexivity | left; reflexivity]. }
    split.
    { split; [| intros [c H]; discriminate H].
      unfold levelCompleted. intros Hin. exfalso. revert Hin.
      destruct ((score gameModel =? MAX_POINTS_PER_GAME_LEVEL C P) || reward);
        destruct (0 <? score gameModel); destruct (provideFeedback gameModel);
        cbn; intuition discriminate. }
    split; [intros H; discriminate H |]. intros _.
    unfold levelCompleted. destruct (provideFeedback gameModel).
    + cbn [levelCompletedNode rootNode].
      eexists. eexists. split; [reflexivity |]. split; [reflexivity |].
      repeat split.
    + split.
      * destruct ((score gameModel =? MAX_POINTS_PER_GAME_LEVEL C P) || reward);
          destruct (0 <? score gameModel); reflexivity.
      * intros node.
        destruct ((score gameModel =? MAX_POINTS_PER_GAME_LEVEL C P) || reward);
          destruct (0 <? score gameModel); cbn; intuition discriminate.
  - repeat split; auto.
    + intros _. now exists challenge.
    + cbn. auto.
    + discriminate.
    + discriminate.
    + discriminate.
    + intros H; discriminate H.
Qed.

End GameScreenListener.
